(** * HelioSyn: scheduler, job state machine, physics models and simulation loop

    Shallow embedding of [src/src/lib/smartScheduler.ts],
    [src/src/lib/simulationConfig.ts], [src/src/lib/physicsModels.ts] and
    [src/src/lib/simulation.ts].

    JavaScript numbers are modelled as real numbers ([R]): the arithmetic
    is exact, without rounding or overflow.  The one underflow modelled is
    that of [Math.exp] in [calculateIrradiance] ([js_exp]).  Where the code
    can produce NaN or an infinity (one division in the metrics record),
    the result is modelled by the small type [jsnum]. *)

From Stdlib Require Import Reals Lra Lia List String Ascii Bool Permutation.
Import ListNotations.

Open Scope R_scope.

(* ------------------------------------------------------------------ *)
(** ** simulationConfig.ts *)

Definition SIMULATION_START_HOUR : R := 0.
Definition SIMULATION_END_HOUR : R := 24.
Definition TIME_STEP_MINUTES : R := 10.
Definition MAX_DATA_HUB_POWER : R := 10.
Definition BASELINE_BACKGROUND_LOAD : R := 3.0.
Definition IDEAL_TEMP : R := 25.
Definition THERMAL_THRESHOLD : R := 32.
Definition HEAT_ACCUMULATION : R := 0.15.
Definition THERMAL_DISSIPATION : R := 0.05.
Definition TEMP_THRESHOLD : R := 25.
Definition COOLING_FACTOR : R := 0.5.
Definition COOLING_EFFICIENCY : R := 0.6.
Definition COOLING_COP : R := 3.0.
Definition LOAD_COOLING_FACTOR : R := 0.05.
Definition MAX_SOLAR_KW : R := 8.0.
Definition SOLAR_EFFICIENCY : R := 0.85.
Definition GRID_CARBON_INTENSITY : R := 0.7.
Definition DEADLINE_PENALTY_KWH : R := 2.0.

(* ------------------------------------------------------------------ *)
(** ** smartScheduler.ts: the [Job] class *)

Inductive Priority := high | medium | low | critical.

Definition Priority_eq_dec (p q : Priority) : {p = q} + {p <> q}.
Proof. decide equality. Defined.

Inductive JobStatus := WAITING | RUNNING | DONE.

Definition JobStatus_eq_dec (s t : JobStatus) : {s = t} + {s <> t}.
Proof. decide equality. Defined.

(** [String.prototype.toLowerCase], on the ASCII range. *)
Definition ascii_lower (c : ascii) : ascii :=
  let n := nat_of_ascii c in
  if (Nat.leb 65 n && Nat.leb n 90)%bool then ascii_of_nat (n + 32) else c.

Fixpoint toLowerCase (s : string) : string :=
  match s with
  | EmptyString => EmptyString
  | String c rest => String (ascii_lower c) (toLowerCase rest)
  end.

(** [Job.normalizePriority]. *)
Definition normalizePriority (p : string) : Priority :=
  let lower := toLowerCase p in
  if String.eqb lower "high" then high
  else if String.eqb lower "medium" then medium
  else if String.eqb lower "low" then low
  else if String.eqb lower "critical" then critical
  else medium.

(** The fields of a [Job] object.  [id] stands for the object's identity
    (the random id string of the source). *)
Record Job := mkJob {
  id : nat;
  name : string;
  powerKw : R;
  duration : R;
  remaining : R;
  priority : Priority;
  deadline : option R;
  status : JobStatus;
  penalized : bool;
  startHour : option R;
  flexible : bool
}.

(** [new Job(name, powerKw, durationMin, priority, deadlineHour, flexible)]. *)
Definition new_Job (i : nat) (nm : string) (p durationMin : R) (prio : string)
    (deadlineHour : option R) (flex : bool) : Job :=
  {| id := i; name := nm; powerKw := p; duration := durationMin;
     remaining := durationMin; priority := normalizePriority prio;
     deadline := deadlineHour; status := WAITING; penalized := false;
     startHour := None; flexible := flex |}.

Definition set_status (s : JobStatus) (j : Job) : Job :=
  {| id := id j; name := name j; powerKw := powerKw j; duration := duration j;
     remaining := remaining j; priority := priority j; deadline := deadline j;
     status := s; penalized := penalized j; startHour := startHour j;
     flexible := flexible j |}.

Definition set_remaining (r : R) (j : Job) : Job :=
  {| id := id j; name := name j; powerKw := powerKw j; duration := duration j;
     remaining := r; priority := priority j; deadline := deadline j;
     status := status j; penalized := penalized j; startHour := startHour j;
     flexible := flexible j |}.

Definition set_penalized (b : bool) (j : Job) : Job :=
  {| id := id j; name := name j; powerKw := powerKw j; duration := duration j;
     remaining := remaining j; priority := priority j; deadline := deadline j;
     status := status j; penalized := b; startHour := startHour j;
     flexible := flexible j |}.

Definition set_startHour (h : option R) (j : Job) : Job :=
  {| id := id j; name := name j; powerKw := powerKw j; duration := duration j;
     remaining := remaining j; priority := priority j; deadline := deadline j;
     status := status j; penalized := penalized j; startHour := h;
     flexible := flexible j |}.

(** [Job.start(currentHour)]. *)
Definition start (currentHour : R) (j : Job) : Job :=
  match status j with
  | WAITING =>
      let j1 := set_status RUNNING j in
      match startHour j1 with
      | None => set_startHour (Some currentHour) j1
      | Some _ => j1
      end
  | _ => j
  end.

(** [Job.runStep(dtMin, currentHour)]. *)
Definition runStep (dtMin currentHour : R) (j : Job) : Job :=
  match status j with
  | DONE => j
  | _ =>
      let j1 := match status j with WAITING => start currentHour j | _ => j end in
      let j2 := set_remaining (remaining j1 - dtMin) j1 in
      if Rle_dec (remaining j2) 0
      then set_status DONE (set_remaining 0 j2)
      else j2
  end.

(** [Job.deadlineMissed(currentHour)]: the returned boolean and the job
    after the call. *)
Definition deadlineMissed (currentHour : R) (j : Job) : bool * Job :=
  match deadline j with
  | None => (false, j)
  | Some d =>
      if Rlt_dec d currentHour then
        match status j with
        | DONE => (false, j)
        | _ => if penalized j then (false, j) else (true, set_penalized true j)
        end
      else (false, j)
  end.

(** [Job.urgencyScore(currentHour)]. *)
Definition urgencyScore (currentHour : R) (j : Job) : R :=
  match deadline j with
  | None => 0
  | Some d =>
      let hoursUntilDeadline := d - currentHour in
      let hoursNeeded := remaining j / 60.0 in
      if Rle_dec hoursUntilDeadline 0 then 999
      else hoursNeeded / hoursUntilDeadline
  end.

(** The method calls a [Job] receives during its lifetime. *)
Inductive job_call :=
  | CallStart (h : R)
  | CallRunStep (dt h : R)
  | CallDeadlineMissed (h : R).

(** One call: the job after it, and the boolean returned by
    [deadlineMissed] when the call is one. *)
Definition exec_call (j : Job) (c : job_call) : Job * option bool :=
  match c with
  | CallStart h => (start h j, None)
  | CallRunStep dt h => (runStep dt h j, None)
  | CallDeadlineMissed h => let (b, j') := deadlineMissed h j in (j', Some b)
  end.

Fixpoint exec_calls (j : Job) (cs : list job_call) : Job :=
  match cs with
  | [] => j
  | c :: rest => exec_calls (fst (exec_call j c)) rest
  end.

(** The values [deadlineMissed] returns along a call sequence. *)
Fixpoint missed_results (j : Job) (cs : list job_call) : list bool :=
  match cs with
  | [] => []
  | c :: rest =>
      let (j', o) := exec_call j c in
      match o with
      | Some b => b :: missed_results j' rest
      | None => missed_results j' rest
      end
  end.

(** Minutes passed to [runStep] along a call sequence. *)
Fixpoint advanced (cs : list job_call) : R :=
  match cs with
  | [] => 0
  | CallRunStep dt _ :: rest => dt + advanced rest
  | _ :: rest => advanced rest
  end.

(* ------------------------------------------------------------------ *)
(** ** smartScheduler.ts: [SmartScheduler] *)

Definition is_waiting (j : Job) : bool :=
  match status j with WAITING => true | _ => false end.

Definition is_done (j : Job) : bool :=
  match status j with DONE => true | _ => false end.

(** The table [pMap] of [prioritizeJobs]. *)
Definition pMap (p : Priority) : R :=
  match p with critical => -1 | high => 0 | medium => 1 | low => 2 end.

(** The comparator passed to [jobs.sort] in [prioritizeJobs]. *)
Definition prioritize_cmp (currentHour : R) (a b : Job) : R :=
  if Req_EM_T (pMap (priority a)) (pMap (priority b)) then
    let urgencyA := urgencyScore currentHour a in
    let urgencyB := urgencyScore currentHour b in
    if Rlt_dec 0.1 (Rabs (urgencyA - urgencyB)) then urgencyB - urgencyA
    else powerKw a - powerKw b
  else pMap (priority a) - pMap (priority b).

(** [Array.prototype.sort] with a comparator, modelled as a stable
    insertion sort: an element is placed before the first element of the
    sorted prefix that the comparator puts after it.  (The engine's sort on
    short arrays is an insertion sort too; no theorem below depends on the
    order the sort produces.) *)
Fixpoint insert_by (cmp : Job -> Job -> R) (x : Job) (l : list Job) : list Job :=
  match l with
  | [] => [x]
  | y :: l' => if Rlt_dec 0 (cmp y x) then x :: l else y :: insert_by cmp x l'
  end.

Definition sort_by (cmp : Job -> Job -> R) (l : list Job) : list Job :=
  fold_left (fun acc x => insert_by cmp x acc) l [].

(** [SmartScheduler.prioritizeJobs]. *)
Definition prioritizeJobs (jobs : list Job) (currentHour _solarKw : R) : list Job :=
  sort_by (prioritize_cmp currentHour) jobs.

(** The two skip conditions of the loop of [SmartScheduler.schedule]. *)
Definition thermal_skip (currentTemp : R) (job : Job) : bool :=
  if Rlt_dec THERMAL_THRESHOLD currentTemp then
    match priority job with low => true | _ => false end
  else false.

Definition solar_skip (solarAvailableKw : R) (job : Job) : bool :=
  match priority job with
  | medium => if Rlt_dec solarAvailableKw 1.0 then flexible job else false
  | _ => false
  end.

(** The [for] loop of [SmartScheduler.schedule] over the sorted jobs, from
    the accumulator [totalPowerUsed]; it returns the jobs pushed on
    [runningJobs], in order. *)
Fixpoint smart_loop (solarAvailableKw currentTemp : R) (js : list Job)
    (totalPowerUsed : R) : list Job :=
  match js with
  | [] => []
  | job :: rest =>
      if thermal_skip currentTemp job then
        smart_loop solarAvailableKw currentTemp rest totalPowerUsed
      else if solar_skip solarAvailableKw job then
        smart_loop solarAvailableKw currentTemp rest totalPowerUsed
      else if Rle_dec (totalPowerUsed + powerKw job) MAX_DATA_HUB_POWER then
        job :: smart_loop solarAvailableKw currentTemp rest
                 (totalPowerUsed + powerKw job)
      else smart_loop solarAvailableKw currentTemp rest totalPowerUsed
  end.

(** [job.start(currentHour)] on every stored job whose identity is in [ids]. *)
Definition apply_starts (ids : list nat) (currentHour : R) (jobs : list Job)
    : list Job :=
  map (fun j => if existsb (Nat.eqb (id j)) ids then start currentHour j else j)
    jobs.

(** [SmartScheduler.schedule(solarAvailableKw, currentTemp, currentHour)] on
    the scheduler's [jobs]: the returned [runningJobs] (as the objects are
    once the call returns) and the scheduler's jobs after the call. *)
Definition SmartScheduler_schedule (solarAvailableKw currentTemp currentHour : R)
    (jobs : list Job) : list Job * list Job :=
  let waitingJobs := filter is_waiting jobs in
  let sortedJobs := prioritizeJobs waitingJobs currentHour solarAvailableKw in
  let admitted := smart_loop solarAvailableKw currentTemp sortedJobs 0 in
  (map (start currentHour) admitted,
   apply_starts (map id admitted) currentHour jobs).

(* ------------------------------------------------------------------ *)
(** ** smartScheduler.ts: [BaselineScheduler] *)

(** The [for] loop of [BaselineScheduler.schedule], with its [break]. *)
Fixpoint baseline_loop (js : list Job) (totalPower : R) : list Job :=
  match js with
  | [] => []
  | job :: rest =>
      if Rle_dec (totalPower + powerKw job) MAX_DATA_HUB_POWER then
        job :: baseline_loop rest (totalPower + powerKw job)
      else []
  end.

Definition BaselineScheduler_schedule (_solar _temp hour : R) (jobs : list Job)
    : list Job * list Job :=
  let waiting := filter is_waiting jobs in
  let admitted := baseline_loop waiting BASELINE_BACKGROUND_LOAD in
  (map (start hour) admitted, apply_starts (map id admitted) hour jobs).

(** The claim's reading of the sort's result: [must_precede h a b] says the
    spec's rules require [a] before [b]. *)
Definition must_precede (h : R) (a b : Job) : Prop :=
  pMap (priority a) < pMap (priority b) \/
  (pMap (priority a) = pMap (priority b) /\
   Rabs (urgencyScore h a - urgencyScore h b) > 0.1 /\
   urgencyScore h a > urgencyScore h b) \/
  (pMap (priority a) = pMap (priority b) /\
   ~ Rabs (urgencyScore h a - urgencyScore h b) > 0.1 /\
   powerKw a < powerKw b).

(** An ordering meets the spec's rules when no job is placed after a job it
    must precede. *)
Definition spec_ordered (h : R) (l : list Job) : Prop :=
  ForallOrdPairs (fun a b => ~ must_precede h b a) l.

(** Sum of [powerKw] over a list of jobs. *)
Definition sum_power (js : list Job) : R :=
  fold_right (fun j s => powerKw j + s) 0 js.

Definition is_running (j : Job) : bool :=
  match status j with RUNNING => true | _ => false end.

(* ------------------------------------------------------------------ *)
(** ** physicsModels.ts *)

Definition D2R : R := PI / 180.

(** [Math.floor], through the Standard Library's integer part. *)
Definition js_floor (x : R) : Z := Int_part x.

(** [Math.exp] in double precision.  A result below half the least
    positive subnormal double, [2^-1075], rounds to 0, so [Math.exp(x)] is 0
    for [x < -1075 ln 2] (about -745.13); above that bound the model keeps
    the exact exponential. *)
Definition EXP_UNDERFLOW : R := - 1075 * ln 2.

Definition js_exp (x : R) : R := if Rlt_dec x EXP_UNDERFLOW then 0 else exp x.

(** The sine of the solar altitude below which [Math.exp(-B / sinAlpha)] of
    [calculateIrradiance] underflows: [0.168 / (1075 ln 2)], about 2.2547e-4. *)
Definition SIN_ALPHA_UNDERFLOW : R := 0.168 / (1075 * ln 2).

(** The sine of the solar altitude computed by [calculateIrradiance]
    ([sinAlpha]), with the declination and hour angle it is built from. *)
Definition declinationRad (dayOfYear : R) : R :=
  let delta := 23.45 * sin ((360 / 365) * (284 + dayOfYear) * D2R) in
  delta * D2R.

Definition hourAngleRad (hour : R) : R :=
  let omega := 15 * (hour - 12) in
  omega * D2R.

Definition solarAltitudeSine (dayOfYear hour latitude : R) : R :=
  let latRad := latitude * D2R in
  let deltaRad := declinationRad dayOfYear in
  let omegaRad := hourAngleRad hour in
  sin latRad * sin deltaRad + cos latRad * cos deltaRad * cos omegaRad.

(** [calculateIrradiance(dayOfYear, hour, latitude, tilt?)]; [None] is an
    omitted (or null) [tilt]. *)
Definition calculateIrradiance (dayOfYear hour latitude : R) (tilt : option R)
    : R :=
  let tiltDeg := match tilt with Some t => t | None => latitude end in
  let tiltRad := tiltDeg * D2R in
  let deltaRad := declinationRad dayOfYear in
  let omegaRad := hourAngleRad hour in
  let sinAlpha := solarAltitudeSine dayOfYear hour latitude in
  if Rle_dec sinAlpha 0 then 0.0 else
  let _alpha := asin sinAlpha in
  let A := 1160 in
  let B := 0.168 in
  let Ibn := A * js_exp (- B / sinAlpha) in
  let effLatRad := (latitude - tiltDeg) * D2R in
  let cosTheta := sin effLatRad * sin deltaRad +
                  cos effLatRad * cos deltaRad * cos omegaRad in
  let I_beam := Ibn * Rmax 0 cosTheta in
  let C := 0.095 in
  let I_diffuse := C * Ibn * ((1 + cos tiltRad) / 2) in
  let rho := 0.2 in
  let I_reflected := Ibn * (sinAlpha + C) * rho * ((1 - cos tiltRad) / 2) in
  Rmax 0 (I_beam + I_diffuse + I_reflected).

(** A default parameter: [None] is an [undefined] argument. *)
Definition with_default (d : R) (o : option R) : R :=
  match o with Some v => v | None => d end.

(** [getSolarPower(hour, maxPowerKw = MAX_SOLAR_KW, latitude = 21.0,
    dayOfYear = 172)]. *)
Definition getSolarPower (hour : R) (maxPowerKw latitude dayOfYear : option R)
    : R :=
  let maxP := with_default MAX_SOLAR_KW maxPowerKw in
  let lat := with_default 21.0 latitude in
  let doy := with_default 172 dayOfYear in
  let irradiance := calculateIrradiance doy hour lat (Some lat) in
  maxP * (irradiance / 1000.0) * SOLAR_EFFICIENCY.

Definition DEF_MIN_TEMP : R := 26.0.
Definition DEF_MAX_TEMP : R := 42.0.
Definition PEAK_TEMP_HOUR : R := 14.0.

(** JavaScript's [%] on numbers: the remainder of the truncated quotient. *)
Definition js_mod (x y : R) : R :=
  let q := x / y in
  let t := if Rle_dec 0 q then Int_part q else (- Int_part (- q))%Z in
  x - y * IZR t.

(** [getAmbientTemp(hour, minTemp = DEF_MIN_TEMP, maxTemp = DEF_MAX_TEMP)]. *)
Definition getAmbientTemp (hour : R) (minTemp maxTemp : option R) : R :=
  let mn := with_default DEF_MIN_TEMP minTemp in
  let mx := with_default DEF_MAX_TEMP maxTemp in
  let h := js_mod hour 24 in
  let avg := (mn + mx) / 2 in
  let amp := (mx - mn) / 2 in
  let phase := (h - PEAK_TEMP_HOUR) * (2 * PI / 24) in
  avg + amp * cos phase.

(** [getCoolingPowerKw(hubTemp, computeLoadKw)]. *)
Definition getCoolingPowerKw (hubTemp computeLoadKw : R) : R :=
  if Rle_dec hubTemp TEMP_THRESHOLD then 0.0 else
  let excess := hubTemp - TEMP_THRESHOLD in
  let coolingReq := COOLING_FACTOR * excess + LOAD_COOLING_FACTOR * computeLoadKw in
  let electricalPower := coolingReq / COOLING_COP in
  Rmax 0 electricalPower.

(* ------------------------------------------------------------------ *)
(** ** simulation.ts *)

(** [getGridPrice(hour)]. *)
Definition getGridPrice (hour : R) : R :=
  if Rlt_dec hour 6 then 4.0
  else if Rle_dec 18 hour then (if Rlt_dec hour 22 then 12.0 else 8.0)
  else 8.0.

(** A [StandardizedPoint]; [timestamp] holds [Number(p.timestamp)] when the
    timestamp is not null ([extras] is not read by the simulation). *)
Record StandardizedPoint := mkPoint {
  timestamp : option R;
  value : R
}.

(** [createLookup(data)]: the hour-keyed map (a later point overrides an
    earlier one with the same key), then the index-keyed fallback map. *)
Definition hour_map_get (pts : list StandardizedPoint) (h : R) : option R :=
  fold_left (fun acc p =>
      match timestamp p with
      | Some t => if Req_EM_T t h then Some (value p) else acc
      | None => acc
      end) pts None.

Definition createLookup (data : option (list StandardizedPoint)) : R -> option R :=
  match data with
  | None | Some [] => fun _ => None
  | Some pts => fun h =>
      match hour_map_get pts h with
      | Some v => Some v
      | None =>
          let idx := js_floor h in
          if Z.leb 0 idx then
            option_map value (nth_error pts (Z.to_nat idx))
          else None
      end
  end.

(** A JavaScript number that may be NaN or infinite; the sign of zero is not
    represented. *)
Inductive jsnum := JNum (r : R) | JNaN | JPosInf | JNegInf.

(** JavaScript division. *)
Definition js_div (x y : R) : jsnum :=
  if Req_EM_T y 0 then
    (if Req_EM_T x 0 then JNaN else if Rlt_dec 0 x then JPosInf else JNegInf)
  else JNum (x / y).

(** JavaScript multiplication by a positive constant. *)
Definition js_mul_pos (x : jsnum) (c : R) : jsnum :=
  match x with JNum r => JNum (r * c) | other => other end.

(** An element of the [appliances] array.  [app_power] is
    [parseFloat(app.power)]; [None] in an optional field is [undefined];
    [app_deadlineHour] is the spec's nullable [deadlineHour]. *)
Record Appliance := mkAppliance {
  app_name : string;
  app_power : R;
  app_duration : option R;
  app_priority : string;
  app_deadlineHour : option R;
  app_flexible : option bool
}.

(** The [Job] built for one appliance by [runSmartSimulation]. *)
Definition job_of_appliance (i : nat) (app : Appliance) : Job :=
  new_Job i (app_name app) (app_power app)
    (match app_duration app with
     | Some d => if Req_EM_T d 0 then 120 else d * 60
     | None => 120
     end)
    (app_priority app) (Some 18)
    (match app_flexible app with Some false => false | _ => true end).

Fixpoint build_jobs_from (i : nat) (apps : list Appliance) : list Job :=
  match apps with
  | [] => []
  | app :: rest => job_of_appliance i app :: build_jobs_from (S i) rest
  end.

(** [appliances.forEach(app => scheduler.addJob(new Job(...)))]. *)
Definition build_jobs (apps : list Appliance) : list Job := build_jobs_from 0 apps.

Record Files := mkFiles {
  files_solar : option (list StandardizedPoint);
  files_weather : option (list StandardizedPoint);
  files_loads : option (list StandardizedPoint)
}.

Record SimulationConfig := mkConfig {
  cfg_maxSolarKw : option R;
  cfg_minTemp : option R;
  cfg_maxTemp : option R;
  cfg_latitude : option R;
  cfg_dayOfYear : option R
}.

(** [scheduler.schedule(...)], for the scheduler chosen by [useSmart]. *)
Definition schedule (useSmart : bool) (solar temp hour : R) (jobs : list Job)
    : list Job * list Job :=
  if useSmart then SmartScheduler_schedule solar temp hour jobs
  else BaselineScheduler_schedule solar temp hour jobs.

(** The state of the [while] loop of [runSmartSimulation].  The scheduler's
    jobs are [st_jobs]; the set [currentlyRunning] is [st_running], the
    identities of its jobs in insertion order. *)
Record SimState := mkSim {
  st_jobs : list Job;
  st_running : list nat;
  st_temp : R;
  st_hour : R;
  st_grid : R;
  st_solar : R;
  st_cooling : R;
  st_carbon : R;
  st_sla : nat;
  st_cost : R;
  log_time : list R;
  log_solar : list R;
  log_grid : list R;
  log_temp : list R;
  log_cooling : list R;
  log_cost : list R
}.

Definition find_job (i : nat) (js : list Job) : option Job :=
  find (fun j => Nat.eqb (id j) i) js.

Definition mem_id (i : nat) (ids : list nat) : bool := existsb (Nat.eqb i) ids.

(** Step B: [runStep] on the jobs of [currentlyRunning], then the ones that
    are DONE leave the set. *)
Definition advance_running (h : R) (running : list nat) (jobs : list Job)
    : list Job * list nat :=
  let jobs1 :=
    map (fun j => if mem_id (id j) running then runStep TIME_STEP_MINUTES h j else j)
      jobs in
  let running1 :=
    filter (fun i => match find_job i jobs1 with
                     | Some j => negb (is_done j)
                     | None => false
                     end) running in
  (jobs1, running1).

(** [newJobs.forEach(j => { if (!currentlyRunning.has(j) && j.status !== 'DONE')
    currentlyRunning.add(j); })]. *)
Definition add_new_jobs (newJobs : list Job) (jobs : list Job) (running : list nat)
    : list nat :=
  fold_left (fun acc j =>
      if mem_id (id j) acc then acc
      else match find_job (id j) jobs with
           | Some cur => if is_done cur then acc else acc ++ [id j]
           | None => acc
           end) newJobs running.

(** [computeLoad]: [Array.from(currentlyRunning).reduce((sum, j) => sum + j.powerKw, 0)]. *)
Definition compute_load (running : list nat) (jobs : list Job) : R :=
  fold_left (fun sum i =>
      match find_job i jobs with Some j => sum + powerKw j | None => sum end)
    running 0.

(** Step F: [scheduler.jobs.forEach(j => { if (j.deadlineMissed(h)) slaViolations++; })]. *)
Fixpoint check_deadlines (h : R) (js : list Job) : nat * list Job :=
  match js with
  | [] => (0%nat, [])
  | j :: rest =>
      let (b, j') := deadlineMissed h j in
      let (n, rest') := check_deadlines h rest in
      ((if b then 1 else 0) + n, j' :: rest')%nat
  end.

(** The solar power and ambient temperature sampled at hour [h]. *)
Definition solar_available (getSolar : R -> option R) (config : SimulationConfig)
    (h : R) : R :=
  match getSolar h with
  | Some v => v
  | None => getSolarPower h (cfg_maxSolarKw config) (cfg_latitude config)
              (cfg_dayOfYear config)
  end.

Definition ambient_temp (getTemp : R -> option R) (config : SimulationConfig)
    (h : R) : R :=
  match getTemp h with
  | Some v => v
  | None => getAmbientTemp h (cfg_minTemp config) (cfg_maxTemp config)
  end.

(** One iteration of the [while] loop body. *)
Definition sim_step (useSmart : bool) (getSolar getTemp : R -> option R)
    (config : SimulationConfig) (st : SimState) : SimState :=
  let currentHour := st_hour st in
  let currentTemp := st_temp st in
  (* A. Environment *)
  let solarAvailable := solar_available getSolar config currentHour in
  let ambientTemp := ambient_temp getTemp config currentHour in
  (* B. Run existing jobs *)
  let (jobs1, running1) := advance_running currentHour (st_running st) (st_jobs st) in
  (* C. Scheduler decision *)
  let (newJobs, jobs2) := schedule useSmart solarAvailable currentTemp currentHour jobs1 in
  let running2 := add_new_jobs newJobs jobs2 running1 in
  (* D. Power and thermal physics *)
  let computeLoad := compute_load running2 jobs2 in
  let solarUsed := Rmin computeLoad solarAvailable in
  let gridUsed := Rmax 0 (computeLoad - solarUsed) in
  let coolingNeeded := getCoolingPowerKw currentTemp computeLoad in
  let tempChange :=
    HEAT_ACCUMULATION * computeLoad - COOLING_EFFICIENCY * coolingNeeded
    - THERMAL_DISSIPATION * (currentTemp - ambientTemp) in
  let newTemp := currentTemp + tempChange in
  (* E. Record metrics *)
  let dtHours := TIME_STEP_MINUTES / 60.0 in
  let currentGridUse := gridUsed + coolingNeeded in
  let price := getGridPrice currentHour in
  let stepCost := currentGridUse * dtHours * price in
  let newCost := st_cost st + stepCost in
  (* F. Deadlines *)
  let (missed, jobs3) := check_deadlines currentHour jobs2 in
  {| st_jobs := jobs3;
     st_running := running2;
     st_temp := newTemp;
     st_hour := currentHour + dtHours;
     st_grid := st_grid st + currentGridUse * dtHours;
     st_solar := st_solar st + solarUsed * dtHours;
     st_cooling := st_cooling st + coolingNeeded * dtHours;
     st_carbon := st_carbon st + currentGridUse * dtHours * GRID_CARBON_INTENSITY;
     st_sla := (st_sla st + missed)%nat;
     st_cost := newCost;
     log_time := log_time st ++ [currentHour];
     log_solar := log_solar st ++ [solarUsed];
     log_grid := log_grid st ++ [currentGridUse];
     log_temp := log_temp st ++ [newTemp];
     log_cooling := log_cooling st ++ [coolingNeeded];
     log_cost := log_cost st ++ [newCost] |}.

(** [while (currentHour < SIMULATION_END_HOUR) { ... }], with [fuel] bounding
    the number of iterations. *)
Fixpoint sim_loop (fuel : nat) (useSmart : bool) (getSolar getTemp : R -> option R)
    (config : SimulationConfig) (st : SimState) : SimState :=
  match fuel with
  | O => st
  | S f =>
      if Rlt_dec (st_hour st) SIMULATION_END_HOUR then
        sim_loop f useSmart getSolar getTemp config
          (sim_step useSmart getSolar getTemp config st)
      else st
  end.

(** The loop starts at hour 0 and adds [TIME_STEP_MINUTES / 60 = 1/6] per
    iteration, so it runs 144 times before [currentHour < 24] fails; 145
    units of fuel let it stop on its own test. *)
Definition SIM_FUEL : nat := 145.

Record TimelineEntry := mkEntry {
  te_name : string;
  te_start : option R;
  te_duration : R;
  te_priority : Priority;
  te_status : JobStatus
}.

Record SchedulerMetrics := mkMetrics {
  energy_solar : R;
  energy_grid : R;
  energy_cooling : R;
  energy_total : R;
  energy_solarPct : jsnum;
  cost_total : R;
  cost_grid : R;
  cost_penalty : R;
  carbon : R;
  sla_violations : nat;
  sla_penaltyKwh : R;
  timeline : list TimelineEntry;
  metrics_logs : SimState
}.

Definition initial_state (jobs : list Job) : SimState :=
  {| st_jobs := jobs; st_running := []; st_temp := IDEAL_TEMP;
     st_hour := SIMULATION_START_HOUR; st_grid := 0; st_solar := 0;
     st_cooling := 0; st_carbon := 0; st_sla := 0%nat; st_cost := 0;
     log_time := []; log_solar := []; log_grid := []; log_temp := [];
     log_cooling := []; log_cost := [] |}.

Definition timeline_entry (j : Job) : TimelineEntry :=
  {| te_name := name j; te_start := startHour j; te_duration := duration j / 60;
     te_priority := priority j; te_status := status j |}.

(** [runSmartSimulation(appliances, files, config, useSmart)]. *)
Definition runSmartSimulation (appliances : list Appliance) (files : Files)
    (config : SimulationConfig) (useSmart : bool) : SchedulerMetrics :=
  let jobs := build_jobs appliances in
  let getSolar := createLookup (files_solar files) in
  let getTemp := createLookup (files_weather files) in
  let st := sim_loop SIM_FUEL useSmart getSolar getTemp config (initial_state jobs) in
  let solarEnergy := st_solar st in
  let gridEnergy := st_grid st in
  let coolingEnergy := st_cooling st in
  {| energy_solar := solarEnergy;
     energy_grid := gridEnergy - coolingEnergy;
     energy_cooling := coolingEnergy;
     energy_total := solarEnergy + gridEnergy;
     energy_solarPct := js_mul_pos (js_div solarEnergy (solarEnergy + gridEnergy)) 100;
     cost_total := st_cost st;
     cost_grid := st_cost st;
     cost_penalty := 0;
     carbon := st_carbon st;
     sla_violations := st_sla st;
     sla_penaltyKwh := INR (st_sla st) * DEADLINE_PENALTY_KWH;
     timeline := map timeline_entry (st_jobs st);
     metrics_logs := st |}.

(** Every [runStep] in a call sequence gets a non-negative [dtMin]. *)
Definition nonneg_steps (cs : list job_call) : Prop :=
  forall dt h, In (CallRunStep dt h) cs -> 0 <= dt.

Definition nonneg_call (c : job_call) : Prop :=
  match c with CallRunStep dt _ => 0 <= dt | _ => True end.

(** The baseline's admission rule as the spec words it: the jobs returned
    are the first [k] WAITING jobs in submission order (started), each
    prefix up to them fits within the capacity from [start_load], and the
    next WAITING job, if any, does not. *)
Definition fifo_admission (hour start_load : R) (waiting returned : list Job)
    : Prop :=
  exists k, returned = map (start hour) (firstn k waiting) /\
    (forall n, (n <= k)%nat ->
       start_load + sum_power (firstn n waiting) <= MAX_DATA_HUB_POWER) /\
    ((k < List.length waiting)%nat ->
     MAX_DATA_HUB_POWER < start_load + sum_power (firstn (S k) waiting)).

(** Concrete jobs used by the examples below. *)
Definition running_heater : Job :=
  set_status RUNNING (new_Job 0 "heater" 10 60 "high" None true).
Definition waiting_pump : Job := new_Job 1 "pump" 5 60 "high" None true.

(** Three low-priority jobs at hour 0 with urgencies 0, 0.08 and 0.16 and
    powers 1, 2 and 3 kW. *)
Definition job_a : Job := new_Job 0 "a" 1 60 "low" None true.
Definition job_b : Job := new_Job 1 "b" 2 48 "low" (Some 10%R) true.
Definition job_c : Job := new_Job 2 "c" 3 96 "low" (Some 10%R) true.

(** Job identities are list positions, as [build_jobs] assigns them. *)
Definition ids_are_positions (js : list Job) : Prop :=
  forall m a, nth_error js m = Some a -> id a = m.

(** A stored job at position [n] that is medium-priority, flexible, WAITING
    and never started, and is not in [currentlyRunning]. *)
Definition medium_flexible_waiting (n : nat) (jobs : list Job) (running : list nat)
    : Prop :=
  ~ In n running /\
  exists j, nth_error jobs n = Some j /\ status j = WAITING /\
    startHour j = None /\ priority j = medium /\ flexible j = true.

(** The invariant of a job built with duration [d] after [a] minutes of
    [runStep]: either not DONE with [d - a] minutes left, or DONE with none
    left and at least [d] minutes advanced. *)
Definition progress_inv (d a : R) (j : Job) : Prop :=
  (status j <> DONE /\ remaining j = d - a /\ 0 < remaining j) \/
  (status j = DONE /\ remaining j = 0 /\ d <= a).

(** A day of historical ambient temperatures: 24 readings of 20 degrees,
    without timestamps, so that the lookup falls back to [Math.floor(hour)]. *)
Definition cool_weather : list StandardizedPoint := repeat (mkPoint None 20) 24.

(** A solar file of 24 readings of 0 kW without timestamps. *)
Definition no_sun : list StandardizedPoint := repeat (mkPoint None 0) 24.

(** No configuration: every [runSmartSimulation] default applies. *)
Definition default_config : SimulationConfig := mkConfig None None None None None.

(** A loop state with no jobs, nothing running, the hub at most at the
    cooling threshold and no energy accumulated. *)
Definition zero_energy_state (st : SimState) : Prop :=
  st_jobs st = [] /\ st_running st = [] /\ st_temp st <= TEMP_THRESHOLD /\
  st_solar st = 0 /\ st_grid st = 0 /\ st_cooling st = 0 /\ 0 <= st_hour st.

(** The order of the job states: a job only moves forward in it. *)
Definition status_rank (s : JobStatus) : nat :=
  match s with WAITING => 0 | RUNNING => 1 | DONE => 2 end.

(** The fields of a job that none of its methods assign: identity, name,
    power, duration, priority, deadline and flexibility. *)
Definition static_eq (a b : Job) : Prop :=
  id a = id b /\ name a = name b /\ powerKw a = powerKw b /\
  duration a = duration b /\ priority a = priority b /\
  deadline a = deadline b /\ flexible a = flexible b.

(** A list of numbers in non-decreasing order. *)
Fixpoint nondecreasing (l : list R) : Prop :=
  match l with
  | x :: ((y :: _) as rest) => x <= y /\ nondecreasing rest
  | _ => True
  end.

(** The number of jobs already counted as an SLA violation. *)
Definition count_penalized (js : list Job) : nat := List.length (filter penalized js).

(** A job whose start hour is set exactly when it has left WAITING, and
    lies in the simulated day when set. *)
Definition start_consistent (j : Job) : Prop :=
  (status j = WAITING <-> startHour j = None) /\
  (forall s, startHour j = Some s -> SIMULATION_START_HOUR <= s < SIMULATION_END_HOUR).

(* ================================================================== *)
(** * Proofs *)

(** Settles the real-number tests of a goal, closing impossible branches. *)
Ltac decide_R :=
  repeat match goal with
  | |- context [Rle_dec ?a ?b] => destruct (Rle_dec a b); try lra
  | |- context [Rlt_dec ?a ?b] => destruct (Rlt_dec a b); try lra
  | |- context [Req_EM_T ?a ?b] => destruct (Req_EM_T a b); try lra
  end.

(* ------------------------------------------------------------------ *)
(** ** The job state machine *)

Lemma start_remaining h j : remaining (start h j) = remaining j.
Proof. unfold start; destruct (status j); simpl; try destruct (startHour j); reflexivity. Qed.

Lemma start_penalized h j : penalized (start h j) = penalized j.
Proof. unfold start; destruct (status j); simpl; try destruct (startHour j); reflexivity. Qed.

Lemma runStep_penalized dt h j : penalized (runStep dt h j) = penalized j.
Proof.
  unfold runStep, start; destruct (status j) eqn:Hs; simpl;
  try destruct (startHour j); decide_R; reflexivity.
Qed.

(** What one [runStep] does, by the job's status and remaining time. *)
Lemma runStep_cases dt h j :
  (status j = DONE /\ runStep dt h j = j) \/
  (status j <> DONE /\ remaining j - dt <= 0 /\
   status (runStep dt h j) = DONE /\ remaining (runStep dt h j) = 0) \/
  (status j <> DONE /\ 0 < remaining j - dt /\
   status (runStep dt h j) <> DONE /\
   remaining (runStep dt h j) = remaining j - dt).
Proof.
  unfold runStep, start; destruct (status j) eqn:Hs; simpl;
  try destruct (startHour j); unfold set_status, set_remaining, set_startHour;
  cbn; decide_R; cbn;
  first [ solve [left; split; reflexivity]
        | solve [right; left; repeat split; try congruence; lra]
        | solve [right; right; repeat split; try congruence; lra] ].
Qed.

(** Which calls of the job leave [penalized] set and never report a miss. *)
Lemma exec_call_penalized j c :
  penalized j = true ->
  penalized (fst (exec_call j c)) = true /\ snd (exec_call j c) <> Some true.
Proof.
  intros Hp; destruct c as [h | dt h | h]; simpl.
  - rewrite start_penalized; split; [assumption | discriminate].
  - rewrite runStep_penalized; split; [assumption | discriminate].
  - unfold deadlineMissed; destruct (deadline j); simpl;
      [ decide_R; destruct (status j); rewrite ?Hp; simpl | ];
      split; try assumption; discriminate.
Qed.

Lemma missed_results_after_penalized j cs :
  penalized j = true -> ~ In true (missed_results j cs).
Proof.
  revert j; induction cs as [| c rest IH]; intros j Hp; simpl; [tauto |].
  destruct (exec_call_penalized j c Hp) as [Hp' Hs].
  destruct (exec_call j c) as [j' [b |]] eqn:He; simpl in *.
  - intros [Hb | Hin]; [subst; congruence | exact (IH j' Hp' Hin)].
  - exact (IH j' Hp').
Qed.

(** A call that does not report a miss leaves [penalized] as it was, and a
    call that reports one sets it. *)
Lemma exec_call_report j c :
  (snd (exec_call j c) = Some true /\ penalized (fst (exec_call j c)) = true) \/
  (snd (exec_call j c) <> Some true /\
   penalized (fst (exec_call j c)) = penalized j).
Proof.
  destruct c as [h | dt h | h]; simpl.
  - right; split; [discriminate | apply start_penalized].
  - right; split; [discriminate | apply runStep_penalized].
  - unfold deadlineMissed; destruct (deadline j); simpl;
      [ decide_R; destruct (status j); try destruct (penalized j) eqn:Hp; simpl | ];
      first [ left; split; reflexivity
            | right; split; [discriminate | try reflexivity; try congruence] ].
Qed.

Lemma missed_results_at_most_once j cs :
  (count_occ Bool.bool_dec (missed_results j cs) true <= 1)%nat.
Proof.
  revert j; induction cs as [| c rest IH]; intros j; simpl; [lia |].
  destruct (exec_call_report j c) as [[Hs Hp] | [Hs Hp]];
    destruct (exec_call j c) as [j' o] eqn:He; simpl in *.
  - subst o; simpl.
    pose proof (missed_results_after_penalized j' rest Hp) as Hn.
    rewrite (proj1 (count_occ_not_In Bool.bool_dec _ true) Hn); lia.
  - destruct o as [b |]; [| apply IH].
    destruct b; [congruence |]; simpl; apply IH.
Qed.

Lemma deadlineMissed_true_iff h j :
  fst (deadlineMissed h j) = true <->
  exists d, deadline j = Some d /\ d < h /\ status j <> DONE /\ penalized j = false.
Proof.
  unfold deadlineMissed; destruct (deadline j) as [d |]; simpl.
  - decide_R.
    + destruct (status j) eqn:Hs; try destruct (penalized j) eqn:Hp; simpl;
        split; intros H; try discriminate;
        try (exists d; repeat split; congruence || lra);
        destruct H as (d' & Hd & Hlt & Hst & Hpen); congruence.
    + split; intros H; [discriminate |].
      destruct H as (d' & Hd & Hlt & _); injection Hd; intros; subst; lra.
  - split; intros H; [discriminate | destruct H as (d' & Hd & _); discriminate].
Qed.

Lemma deadlineMissed_sets_penalized h j :
  fst (deadlineMissed h j) = true -> penalized (snd (deadlineMissed h j)) = true.
Proof.
  unfold deadlineMissed; destruct (deadline j); simpl; [| discriminate].
  decide_R; [| discriminate].
  destruct (status j); try destruct (penalized j); simpl; try discriminate;
    reflexivity.
Qed.

Lemma start_status_done h j : status j <> DONE -> status (start h j) <> DONE.
Proof.
  unfold start, set_status, set_startHour; destruct (status j) eqn:Hs;
  intros Hn; cbn; try destruct (startHour j); cbn; congruence.
Qed.

Lemma start_status_done' h j : status j = DONE -> status (start h j) = DONE.
Proof. unfold start; intros Hs; rewrite Hs; exact Hs. Qed.

Lemma progress_inv_call d a j c :
  nonneg_call c -> progress_inv d a j ->
  progress_inv d (a + advanced [c]) (fst (exec_call j c)).
Proof.
  intros Hc Hi; destruct c as [h | dt h | h]; simpl in *.
  - rewrite Rplus_0_r; destruct Hi as [(Hs & Hr & Hp) | (Hs & Hr & Hd)].
    + left; rewrite start_remaining; repeat split; auto using start_status_done.
    + right; rewrite start_remaining; repeat split; auto using start_status_done'.
  - rewrite Rplus_0_r.
    destruct (runStep_cases dt h j) as [(Hs & He) | [(Hs & Hle & Hs' & Hr') | (Hs & Hlt & Hs' & Hr')]].
    + rewrite He; destruct Hi as [(Hs2 & _) | (Hs2 & Hr & Hd)]; [congruence |].
      right; repeat split; auto; lra.
    + right; repeat split; auto.
      destruct Hi as [(_ & Hr & _) | (Hs2 & _)]; [lra | congruence].
    + left; repeat split; auto.
      * destruct Hi as [(_ & Hr & _) | (Hs2 & _)]; [lra | congruence].
      * lra.
  - rewrite Rplus_0_r.
    unfold deadlineMissed; destruct (deadline j); simpl; [| exact Hi].
    decide_R; [| exact Hi].
    destruct (status j) eqn:Hs; try destruct (penalized j); simpl; try exact Hi;
      unfold progress_inv, set_penalized in *; cbn; exact Hi.
Qed.

Lemma progress_inv_calls d a j cs :
  nonneg_steps cs -> progress_inv d a j ->
  progress_inv d (a + advanced cs) (exec_calls j cs).
Proof.
  revert a j; induction cs as [| c rest IH]; intros a j Hn Hi.
  - simpl; rewrite Rplus_0_r; exact Hi.
  - assert (Hc : nonneg_call c).
    { destruct c; simpl; auto. apply (Hn dt h); left; reflexivity. }
    assert (Hr : nonneg_steps rest).
    { intros dt h Hin; apply (Hn dt h); right; exact Hin. }
    pose proof (progress_inv_call d a j c Hc Hi) as H1.
    specialize (IH (a + advanced [c]) _ Hr H1).
    replace (a + advanced (c :: rest)) with (a + advanced [c] + advanced rest).
    + exact IH.
    + destruct c; simpl; ring.
Qed.

Lemma exec_call_remaining_le j c :
  nonneg_call c -> 0 <= remaining j \/ status j = DONE ->
  remaining (fst (exec_call j c)) <= remaining j.
Proof.
  intros Hc Hj; destruct c as [h | dt h | h]; simpl in *.
  - rewrite start_remaining; lra.
  - destruct (runStep_cases dt h j) as [(Hs & He) | [(Hs & Hle & Hs' & Hr') | (Hs & Hlt & Hs' & Hr')]].
    + rewrite He; lra.
    + rewrite Hr'; destruct Hj; [lra | congruence].
    + rewrite Hr'; lra.
  - unfold deadlineMissed; destruct (deadline j); simpl; [| lra].
    decide_R; destruct (status j); try destruct (penalized j); simpl; lra.
Qed.

Lemma new_Job_progress_inv i nm p dmin prio dl flex :
  0 < dmin -> progress_inv dmin 0 (new_Job i nm p dmin prio dl flex).
Proof.
  intros Hd; left; cbn; repeat split; [discriminate | ring | exact Hd].
Qed.

(* ------------------------------------------------------------------ *)
(** ** Claims on the [Job] class *)

(** C3: [deadlineMissed(hour)] returns true exactly when the job has a
    deadline, [hour] exceeds it, the status is not DONE and the job is not
    yet [penalized]; a true result sets [penalized], after which no call
    sequence gets true again; with no deadline it returns false; along any
    sequence of calls it returns true at most once. *)
Theorem deadlineMissed_at_most_once (j : Job) (h : R) (cs : list job_call) :
  (fst (deadlineMissed h j) = true <->
   exists d, deadline j = Some d /\ d < h /\ status j <> DONE /\
             penalized j = false) /\
  (fst (deadlineMissed h j) = true ->
   penalized (snd (deadlineMissed h j)) = true /\
   forall later, ~ In true (missed_results (snd (deadlineMissed h j)) later)) /\
  (deadline j = None -> fst (deadlineMissed h j) = false) /\
  (count_occ Bool.bool_dec (missed_results j cs) true <= 1)%nat.
Proof.
  split; [apply deadlineMissed_true_iff |].
  split.
  - intros Ht; pose proof (deadlineMissed_sets_penalized h j Ht) as Hp.
    split; [exact Hp |]; intros later; apply missed_results_after_penalized; exact Hp.
  - split; [| apply missed_results_at_most_once].
    intros Hn; unfold deadlineMissed; rewrite Hn; reflexivity.
Qed.

Lemma deadlineMissed_at_most_once_witness :
  missed_results (new_Job 0 "pump" 2 120 "high" (Some 1%R) true)
    [CallDeadlineMissed 0; CallDeadlineMissed 2; CallDeadlineMissed 3] =
    [false; true; false] /\
  (count_occ Bool.bool_dec
     (missed_results (new_Job 0 "pump" 2 120 "high" (Some 1%R) true)
        [CallDeadlineMissed 0; CallDeadlineMissed 2; CallDeadlineMissed 3])
     true <= 1)%nat.
Proof.
  split.
  - unfold missed_results, exec_call, deadlineMissed, set_penalized, new_Job.
    do 4 (cbn; decide_R); reflexivity.
  - apply (deadlineMissed_at_most_once (new_Job 0 "pump" 2 120 "high" (Some 1%R) true) 0).
Defined.

(** C4 (as stated, for every Job): a job built with a negative duration
    starts with a negative [remainingMinutes], and one [runStep] raises it. *)
Lemma runStep_negative_duration_cex :
  remaining (new_Job 0 "pump" 1 (-60) "high" None true) < 0 /\
  remaining (new_Job 0 "pump" 1 (-60) "high" None true) <
  remaining (runStep 10 0 (new_Job 0 "pump" 1 (-60) "high" None true)).
Proof.
  unfold runStep, start, set_status, set_remaining, set_startHour; cbn.
  decide_R; cbn; lra.
Qed.

(** C4 (amended): for a Job built with a positive duration, along any
    sequence of calls whose [runStep]s get non-negative minutes,
    [remainingMinutes] is never negative and no call increases it,
    [runStep] does nothing once the job is DONE, the job is DONE exactly
    when the minutes passed to [runStep] add up to at least its duration,
    and a DONE job has no minutes left. *)
Theorem runStep_progress (i : nat) (nm : string) (p dmin : R) (prio : string)
    (dl : option R) (flex : bool) (cs : list job_call) :
  0 < dmin -> nonneg_steps cs ->
  let j := exec_calls (new_Job i nm p dmin prio dl flex) cs in
  0 <= remaining j /\
  (forall c, nonneg_call c -> remaining (fst (exec_call j c)) <= remaining j) /\
  (forall dt h, status j = DONE -> runStep dt h j = j) /\
  (status j = DONE <-> dmin <= advanced cs) /\
  (status j = DONE -> remaining j = 0).
Proof.
  intros Hd Hn j.
  pose proof (progress_inv_calls dmin 0 _ cs Hn (new_Job_progress_inv i nm p dmin prio dl flex Hd)) as Hi.
  rewrite Rplus_0_l in Hi; fold j in Hi.
  assert (Hr : 0 <= remaining j) by (destruct Hi as [(_ & _ & H) | (_ & H & _)]; lra).
  split; [exact Hr |].
  split; [intros c Hc; apply exec_call_remaining_le; auto |].
  split; [intros dt h Hs; unfold runStep; rewrite Hs; reflexivity |].
  split.
  - destruct Hi as [(Hs & Hrem & Hpos) | (Hs & Hrem & Hle)]; split; intros H;
      try congruence; try lra; exact Hs.
  - intros Hs; destruct Hi as [(Hs' & _) | (_ & Hrem & _)]; [congruence | exact Hrem].
Qed.

Lemma runStep_progress_witness :
  0 < 60 /\ nonneg_steps [CallStart 0; CallRunStep 10 0; CallRunStep 60 1] /\
  status (exec_calls (new_Job 0 "pump" 2 60 "Medium" None true)
            [CallStart 0; CallRunStep 10 0; CallRunStep 60 1]) = DONE.
Proof.
  assert (H1 : 0 < 60) by lra.
  assert (H2 : nonneg_steps [CallStart 0; CallRunStep 10 0; CallRunStep 60 1]).
  { intros dt h Hin; simpl in Hin.
    destruct Hin as [H | [H | [H | []]]]; inversion H; lra. }
  split; [exact H1 | split; [exact H2 |]].
  destruct (runStep_progress 0 "pump" 2 60 "Medium" None true _ H1 H2)
    as (_ & _ & _ & Hiff & _).
  apply Hiff; simpl; lra.
Defined.

(** C5: [urgencyScore(hour)] is 0 without a deadline, the sentinel 999 once
    the deadline is now or past, and [(remainingMinutes / 60) / (deadline -
    hour)] otherwise. *)
Theorem urgencyScore_cases (j : Job) (h : R) :
  (deadline j = None -> urgencyScore h j = 0) /\
  (forall d, deadline j = Some d -> d - h <= 0 -> urgencyScore h j = 999) /\
  (forall d, deadline j = Some d -> 0 < d - h ->
   urgencyScore h j = (remaining j / 60) / (d - h)).
Proof.
  unfold urgencyScore; repeat split.
  - intros Hn; rewrite Hn; reflexivity.
  - intros d Hd Hle; rewrite Hd; decide_R; reflexivity.
  - intros d Hd Hlt; rewrite Hd; decide_R; reflexivity.
Qed.

Lemma urgencyScore_cases_witness :
  urgencyScore 20 (new_Job 0 "pump" 2 120 "high" (Some 18%R) true) = 999 /\
  urgencyScore 16 (new_Job 0 "pump" 2 120 "high" (Some 18%R) true) = 1.
Proof.
  destruct (urgencyScore_cases (new_Job 0 "pump" 2 120 "high" (Some 18%R) true) 20)
    as (_ & H1 & _).
  destruct (urgencyScore_cases (new_Job 0 "pump" 2 120 "high" (Some 18%R) true) 16)
    as (_ & _ & H2).
  split.
  - apply (H1 18); [reflexivity | lra].
  - rewrite (H2 18); [cbn; field | reflexivity | lra].
Defined.

(* ------------------------------------------------------------------ *)
(** ** The schedulers' loops *)

Lemma start_powerKw h j : powerKw (start h j) = powerKw j.
Proof.
  unfold start, set_status, set_startHour; destruct (status j); cbn;
  try destruct (startHour j); reflexivity.
Qed.

Lemma start_id h j : id (start h j) = id j.
Proof.
  unfold start, set_status, set_startHour; destruct (status j); cbn;
  try destruct (startHour j); reflexivity.
Qed.

Lemma sum_power_map_start h js : sum_power (map (start h) js) = sum_power js.
Proof.
  induction js as [| j js IH]; simpl; [reflexivity |].
  rewrite start_powerKw, IH; reflexivity.
Qed.

(** The loop of [SmartScheduler.schedule] keeps [totalPowerUsed] within the
    capacity: started within it, it ends within it. *)
Lemma smart_loop_within_capacity solar temp js total :
  total <= MAX_DATA_HUB_POWER ->
  total + sum_power (smart_loop solar temp js total) <= MAX_DATA_HUB_POWER.
Proof.
  revert total; induction js as [| j rest IH]; intros total Ht; simpl.
  - lra.
  - destruct (thermal_skip temp j); [apply IH; exact Ht |].
    destruct (solar_skip solar j); [apply IH; exact Ht |].
    decide_R.
    + simpl. specialize (IH (total + powerKw j) r). lra.
    + apply IH; exact Ht.
Qed.

(** A job the loop admits is one of its input jobs that no skip rule
    excluded. *)
Lemma smart_loop_admitted solar temp js total a :
  In a (smart_loop solar temp js total) ->
  In a js /\ thermal_skip temp a = false /\ solar_skip solar a = false.
Proof.
  revert total; induction js as [| j rest IH]; intros total Hin; simpl in Hin.
  - contradiction.
  - destruct (thermal_skip temp j) eqn:Ht.
    + destruct (IH _ Hin) as (H1 & H2); split; [right; exact H1 | exact H2].
    + destruct (solar_skip solar j) eqn:Hs.
      * destruct (IH _ Hin) as (H1 & H2); split; [right; exact H1 | exact H2].
      * destruct (Rle_dec (total + powerKw j) MAX_DATA_HUB_POWER).
        -- destruct Hin as [He | Hin].
           ++ subst a; split; [left; reflexivity | split; assumption].
           ++ destruct (IH _ Hin) as (H1 & H2); split; [right; exact H1 | exact H2].
        -- destruct (IH _ Hin) as (H1 & H2); split; [right; exact H1 | exact H2].
Qed.

Lemma insert_by_in cmp x y l : In y (insert_by cmp x l) -> y = x \/ In y l.
Proof.
  induction l as [| z l IH]; simpl; intros H.
  - destruct H as [H | []]; left; symmetry; exact H.
  - destruct (Rlt_dec 0 (cmp z x)); simpl in H.
    + destruct H as [H | H]; [left; symmetry; exact H | right; exact H].
    + destruct H as [H | H]; [right; left; exact H |].
      destruct (IH H) as [H1 | H1]; [left; exact H1 | right; right; exact H1].
Qed.

Lemma sort_by_in cmp l y : In y (sort_by cmp l) -> In y l.
Proof.
  unfold sort_by.
  assert (Hgen : forall acc, In y (fold_left (fun acc x => insert_by cmp x acc) l acc) ->
                 In y acc \/ In y l).
  { induction l as [| x l IH]; intros acc H; simpl in *; [left; exact H |].
    destruct (IH _ H) as [H1 | H1].
    - destruct (insert_by_in cmp x y acc H1) as [H2 | H2];
        [right; left; symmetry; exact H2 | left; exact H2].
    - right; right; exact H1. }
  intros H; destruct (Hgen [] H) as [[] | H1]; exact H1.
Qed.

(** The loop of [BaselineScheduler.schedule] admits a prefix of its input:
    every shorter prefix fits within the capacity from [total], and the
    next job, if any, does not fit. *)
Lemma baseline_loop_prefix js total :
  total <= MAX_DATA_HUB_POWER ->
  exists k, baseline_loop js total = firstn k js /\
    (forall n, (n <= k)%nat -> total + sum_power (firstn n js) <= MAX_DATA_HUB_POWER) /\
    ((k < List.length js)%nat ->
     MAX_DATA_HUB_POWER < total + sum_power (firstn (S k) js)).
Proof.
  revert total; induction js as [| j rest IH]; intros total Ht.
  - exists 0%nat; simpl; split; [reflexivity | split].
    + intros n Hn; destruct n; simpl; lra.
    + intros Hk; lia.
  - simpl; destruct (Rle_dec (total + powerKw j) MAX_DATA_HUB_POWER) as [Hle | Hgt].
    + destruct (IH (total + powerKw j) Hle) as (k & Hk & Hpre & Hnext).
      exists (S k); split; [rewrite Hk; reflexivity | split].
      * intros n Hn; destruct n as [| n]; simpl; [lra |].
        specialize (Hpre n ltac:(lia)); lra.
      * intros Hlt; simpl in Hlt.
        replace (sum_power (firstn (S (S k)) (j :: rest)))
          with (powerKw j + sum_power (firstn (S k) rest)) by reflexivity.
        assert (Hk2 : (k < List.length rest)%nat) by (apply Nat.succ_lt_mono; exact Hlt).
        specialize (Hnext Hk2); lra.
    + exists 0%nat; split; [reflexivity | split].
      * intros n Hn; replace n with 0%nat by lia; simpl; lra.
      * intros _; simpl; lra.
Qed.

(* ------------------------------------------------------------------ *)
(** ** Claims on the schedulers *)

(** C1 (as stated): a job already RUNNING draws 10 kW and a WAITING
    high-priority job draws 5 kW; the call admits the waiting job, and the
    two together draw 15 kW, above the 10 kW capacity. *)
Lemma smart_schedule_ignores_running_cex :
  ~ (sum_power (fst (SmartScheduler_schedule 0 25 0 [running_heater; waiting_pump]))
     + sum_power (filter is_running [running_heater; waiting_pump])
     <= MAX_DATA_HUB_POWER).
Proof.
  intros H.
  unfold SmartScheduler_schedule in H; cbn [fst] in H.
  rewrite sum_power_map_start in H.
  assert (Hs : prioritizeJobs (filter is_waiting [running_heater; waiting_pump]) 0 0
               = [waiting_pump]) by reflexivity.
  rewrite Hs in H.
  assert (Ha : smart_loop 0 25 [waiting_pump] 0 = [waiting_pump]).
  { unfold smart_loop, thermal_skip, solar_skip, waiting_pump, THERMAL_THRESHOLD,
      MAX_DATA_HUB_POWER; cbn; decide_R; reflexivity. }
  rewrite Ha in H.
  unfold running_heater, waiting_pump, set_status, new_Job, MAX_DATA_HUB_POWER in H.
  cbn in H; lra.
Qed.

(** C1 (amended): the jobs one call of [SmartScheduler.schedule] admits draw
    together at most [MAX_DATA_HUB_POWER]; the accumulator starts at 0 and
    jobs already RUNNING are not counted. *)
Theorem smart_schedule_within_capacity (solarAvailableKw currentTemp currentHour : R)
    (jobs : list Job) :
  sum_power (fst (SmartScheduler_schedule solarAvailableKw currentTemp currentHour jobs))
  <= MAX_DATA_HUB_POWER.
Proof.
  unfold SmartScheduler_schedule; simpl.
  rewrite sum_power_map_start.
  pose proof (smart_loop_within_capacity solarAvailableKw currentTemp
    (prioritizeJobs (filter is_waiting jobs) currentHour solarAvailableKw) 0) as H.
  unfold MAX_DATA_HUB_POWER in *; lra.
Qed.

(** C6: [BaselineScheduler.schedule] admits the first [k] WAITING jobs in
    submission order, from an accumulator starting at
    [BASELINE_BACKGROUND_LOAD], each while the accumulator plus its power
    stays within capacity, and stops at the first job that does not fit:
    no later job is admitted. *)
Theorem baseline_schedule_fifo (solar temp hour : R) (jobs : list Job) :
  fifo_admission hour BASELINE_BACKGROUND_LOAD (filter is_waiting jobs)
    (fst (BaselineScheduler_schedule solar temp hour jobs)).
Proof.
  unfold BaselineScheduler_schedule; simpl.
  assert (H3 : BASELINE_BACKGROUND_LOAD <= MAX_DATA_HUB_POWER)
    by (unfold BASELINE_BACKGROUND_LOAD, MAX_DATA_HUB_POWER; lra).
  destruct (baseline_loop_prefix (filter is_waiting jobs) _ H3) as (k & Hk & Hpre & Hnext).
  exists k; rewrite Hk; split; [reflexivity | split; assumption].
Qed.

Lemma baseline_schedule_fifo_witness :
  map id (fst (BaselineScheduler_schedule 0 25 0
                 [new_Job 0 "ev" 5 60 "low" None true;
                  new_Job 1 "light" 4 60 "critical" None true;
                  new_Job 2 "fan" 1 60 "high" None true])) = [0%nat] /\
  fifo_admission 0 BASELINE_BACKGROUND_LOAD
    (filter is_waiting [new_Job 0 "ev" 5 60 "low" None true;
                        new_Job 1 "light" 4 60 "critical" None true;
                        new_Job 2 "fan" 1 60 "high" None true])
    (fst (BaselineScheduler_schedule 0 25 0
            [new_Job 0 "ev" 5 60 "low" None true;
             new_Job 1 "light" 4 60 "critical" None true;
             new_Job 2 "fan" 1 60 "high" None true])).
Proof.
  split.
  - unfold BaselineScheduler_schedule, BASELINE_BACKGROUND_LOAD, MAX_DATA_HUB_POWER.
    do 3 (cbn; unfold MAX_DATA_HUB_POWER; decide_R); reflexivity.
  - apply baseline_schedule_fifo.
Defined.

Lemma urgency_job_a : urgencyScore 0 job_a = 0.
Proof. reflexivity. Qed.

Lemma urgency_job_b : urgencyScore 0 job_b = 0.08.
Proof. unfold urgencyScore, job_b, new_Job; cbn; decide_R. Qed.

Lemma urgency_job_c : urgencyScore 0 job_c = 0.16.
Proof. unfold urgencyScore, job_c, new_Job; cbn; decide_R. Qed.

Ltac rabs_const :=
  unfold Rabs; destruct (Rcase_abs _); lra.

Lemma job_c_before_job_a : must_precede 0 job_c job_a.
Proof.
  right; left; rewrite urgency_job_c, urgency_job_a.
  split; [reflexivity | split; [rabs_const | lra]].
Qed.

Lemma job_a_before_job_b : must_precede 0 job_a job_b.
Proof.
  right; right; rewrite urgency_job_a, urgency_job_b.
  split; [reflexivity | split; [rabs_const | cbn; lra]].
Qed.

Lemma job_b_before_job_c : must_precede 0 job_b job_c.
Proof.
  right; right; rewrite urgency_job_b, urgency_job_c.
  split; [reflexivity | split; [rabs_const | cbn; lra]].
Qed.

Lemma cex_jobs_nodup : NoDup [job_a; job_b; job_c].
Proof.
  constructor; [simpl; intros [H | [H | []]]; apply (f_equal id) in H; discriminate H |].
  constructor; [simpl; intros [H | []]; apply (f_equal id) in H; discriminate H |].
  constructor; [simpl; tauto | constructor].
Qed.

(** C8 (as stated): for the three jobs [job_a], [job_b], [job_c] no
    ordering meets all of the spec's pairwise rules: [job_c] must precede
    [job_a] (urgency 0.16 against 0, a gap above 0.1), [job_a] must precede
    [job_b] and [job_b] must precede [job_c] (urgency gaps of 0.08, then
    smaller power first).  Whatever the sort returns violates the claim. *)
Lemma prioritize_no_consistent_order_cex :
  ~ exists l, Permutation l [job_a; job_b; job_c] /\ spec_ordered 0 l.
Proof.
  intros (l & Hp & Ho).
  pose proof (Permutation_length Hp) as Hlen.
  pose proof (Permutation_NoDup (Permutation_sym Hp) cex_jobs_nodup) as Hnd.
  assert (Hin : forall x, In x l -> x = job_a \/ x = job_b \/ x = job_c).
  { intros x Hx; pose proof (Permutation_in _ Hp Hx) as H; simpl in H; intuition. }
  destruct l as [| x [| y [| z [| w l]]]]; simpl in Hlen; try discriminate.
  inversion Ho as [| ? ? Hx Hyz]; subst.
  inversion Hyz as [| ? ? Hy _]; subst.
  inversion Hx as [| ? ? H1 Hx']; subst; inversion Hx' as [| ? ? H2 _]; subst.
  inversion Hy as [| ? ? H3 _]; subst.
  destruct (Hin x ltac:(simpl; auto)) as [-> | [-> | ->]];
  destruct (Hin y ltac:(simpl; auto)) as [-> | [-> | ->]];
  destruct (Hin z ltac:(simpl; auto)) as [-> | [-> | ->]];
  try (inversion Hnd as [| ? ? Hn1 Hnd1]; subst; inversion Hnd1 as [| ? ? Hn2 _];
       subst; simpl in Hn1, Hn2; tauto);
  match goal with
  | H : ~ must_precede _ ?p ?q |- _ =>
      apply H; first [ exact job_c_before_job_a | exact job_a_before_job_b
                     | exact job_b_before_job_c ]
  end.
Qed.

(** C8 (amended): the comparator the Smart Scheduler sorts with puts [a]
    before [b] (returns a negative value) exactly when the spec's rules
    say [a] must precede [b]: an earlier priority class; or, in one class,
    an urgency higher by more than 0.1; or, in one class with urgencies
    within 0.1, a smaller [powerKw]. *)
Theorem prioritize_cmp_negative_iff (h : R) (a b : Job) :
  prioritize_cmp h a b < 0 <-> must_precede h a b.
Proof.
  unfold prioritize_cmp, must_precede.
  destruct (Req_EM_T (pMap (priority a)) (pMap (priority b))) as [Heq | Hne].
  - destruct (Rlt_dec 0.1 (Rabs (urgencyScore h a - urgencyScore h b))) as [Hgt | Hle].
    + split; intros H.
      * right; left; repeat split; auto; lra.
      * destruct H as [H | [(_ & _ & H) | (_ & H & _)]]; lra || contradiction.
    + split; intros H.
      * right; right; repeat split; auto; lra.
      * destruct H as [H | [(_ & H & _) | (_ & _ & H)]]; lra || contradiction.
  - split; intros H.
    + left; lra.
    + destruct H as [H | [(H & _) | (H & _)]]; lra || contradiction.
Qed.

Lemma prioritize_cmp_negative_iff_witness :
  prioritize_cmp 0 job_c job_a < 0.
Proof.
  apply (proj2 (prioritize_cmp_negative_iff 0 job_c job_a)).
  exact job_c_before_job_a.
Defined.

(* ------------------------------------------------------------------ *)
(** ** Medium-priority flexible jobs without solar power *)

Lemma start_priority h j : priority (start h j) = priority j.
Proof.
  unfold start, set_status, set_startHour; destruct (status j); cbn;
  try destruct (startHour j); reflexivity.
Qed.

Lemma start_flexible h j : flexible (start h j) = flexible j.
Proof.
  unfold start, set_status, set_startHour; destruct (status j); cbn;
  try destruct (startHour j); reflexivity.
Qed.

Lemma runStep_id dt h j : id (runStep dt h j) = id j.
Proof.
  unfold runStep, start, set_status, set_remaining, set_startHour;
  destruct (status j); cbn; try destruct (startHour j); cbn; decide_R; reflexivity.
Qed.

(** [deadlineMissed] only ever changes [penalized]. *)
Lemma deadlineMissed_fields h j :
  let j' := snd (deadlineMissed h j) in
  id j' = id j /\ status j' = status j /\ startHour j' = startHour j /\
  priority j' = priority j /\ flexible j' = flexible j.
Proof.
  unfold deadlineMissed, set_penalized; destruct (deadline j); cbn; [| tauto].
  decide_R; cbn; [| tauto].
  destruct (status j) eqn:Hs; try destruct (penalized j); cbn; tauto.
Qed.

Lemma check_deadlines_map h js :
  snd (check_deadlines h js) = map (fun j => snd (deadlineMissed h j)) js.
Proof.
  induction js as [| j rest IH]; cbn; [reflexivity |].
  destruct (deadlineMissed h j) as [b j']; destruct (check_deadlines h rest) as [k rest'].
  cbn in *; rewrite IH; reflexivity.
Qed.

Lemma ids_are_positions_map (f : Job -> Job) (js : list Job) :
  (forall j, id (f j) = id j) -> ids_are_positions js -> ids_are_positions (map f js).
Proof.
  intros Hf Hp m a Hm; rewrite nth_error_map in Hm.
  destruct (nth_error js m) as [b |] eqn:Hb; cbn in Hm; [| discriminate].
  injection Hm as <-; rewrite Hf; exact (Hp m b Hb).
Qed.

Lemma ids_are_positions_unique js n j a :
  ids_are_positions js -> nth_error js n = Some j -> In a js -> id a = n -> a = j.
Proof.
  intros Hp Hn Ha Hid.
  destruct (In_nth_error js a Ha) as (m & Hm).
  pose proof (Hp m a Hm) as Hma; subst n; rewrite Hma in Hn.
  rewrite Hm in Hn; injection Hn as ->; reflexivity.
Qed.

Lemma nth_error_map_fixed (f : Job -> Job) (js : list Job) (n : nat) (j : Job) :
  nth_error js n = Some j -> f j = j -> nth_error (map f js) n = Some j.
Proof. intros Hn Hf; rewrite nth_error_map, Hn; cbn; rewrite Hf; reflexivity. Qed.

Lemma apply_starts_id ids h j :
  id ((fun j => if existsb (Nat.eqb (id j)) ids then start h j else j) j) = id j.
Proof. cbn; destruct (existsb _ ids); [apply start_id | reflexivity]. Qed.

Lemma existsb_eqb_false n ids :
  ~ In n ids -> existsb (Nat.eqb n) ids = false.
Proof.
  intros Hn; apply Bool.not_true_is_false; intros H.
  apply existsb_exists in H; destruct H as (x & Hx & He).
  apply Nat.eqb_eq in He; subst; contradiction.
Qed.

Lemma add_new_jobs_in newJobs jobs running i :
  In i (add_new_jobs newJobs jobs running) ->
  In i running \/ exists x, In x newJobs /\ id x = i.
Proof.
  unfold add_new_jobs; revert running.
  induction newJobs as [| x rest IH]; intros running H; cbn in H; [left; exact H |].
  destruct (IH _ H) as [H1 | (y & Hy & Hid)];
    [| right; exists y; split; [right; exact Hy | exact Hid]].
  destruct (mem_id (id x) running); [left; exact H1 |].
  destruct (find_job (id x) jobs) as [cur |]; [| left; exact H1].
  destruct (is_done cur); [left; exact H1 |].
  apply in_app_or in H1; destruct H1 as [H1 | [H1 | []]];
    [left; exact H1 | right; exists x; split; [left | ]; auto].
Qed.

(** Schedule-level part: when solar power is below 1 kW, the Smart
    Scheduler neither returns nor starts a medium-priority flexible job. *)
Lemma smart_schedule_skips_medium_flexible solar temp hour jobs n :
  solar < 1 -> ids_are_positions jobs ->
  medium_flexible_waiting n jobs [] ->
  (forall a, In a (fst (SmartScheduler_schedule solar temp hour jobs)) ->
   ~ (priority a = medium /\ flexible a = true)) /\
  ~ In n (map id (fst (SmartScheduler_schedule solar temp hour jobs))) /\
  ids_are_positions (snd (SmartScheduler_schedule solar temp hour jobs)) /\
  (forall j, nth_error jobs n = Some j ->
   nth_error (snd (SmartScheduler_schedule solar temp hour jobs)) n = Some j).
Proof.
  intros Hs Hp (_ & j & Hj & Hst & Hsh & Hpr & Hfl).
  unfold SmartScheduler_schedule; cbn [fst snd].
  set (adm := smart_loop solar temp
                (prioritizeJobs (filter is_waiting jobs) hour solar) 0).
  assert (Hadm : forall a, In a adm ->
            In a jobs /\ ~ (priority a = medium /\ flexible a = true)).
  { intros a Ha; destruct (smart_loop_admitted _ _ _ _ _ Ha) as (Hin & _ & Hsk).
    apply sort_by_in, filter_In in Hin; destruct Hin as (Hin & _).
    split; [exact Hin |]; intros (Hm & Hf).
    unfold solar_skip in Hsk; rewrite Hm in Hsk; destruct (Rlt_dec solar 1.0); [congruence | lra]. }
  assert (Hnot : ~ In n (map id adm)).
  { intros Hin; apply in_map_iff in Hin; destruct Hin as (a & Hid & Ha).
    destruct (Hadm a Ha) as (Hin & Hnm).
    pose proof (ids_are_positions_unique _ _ _ _ Hp Hj Hin Hid) as ->; tauto. }
  split; [| split; [| split]].
  - intros a Ha; apply in_map_iff in Ha; destruct Ha as (b & <- & Hb).
    rewrite start_priority, start_flexible; exact (proj2 (Hadm b Hb)).
  - rewrite map_map; erewrite map_ext; [exact Hnot | intros a; apply start_id].
  - unfold apply_starts; apply ids_are_positions_map; [apply apply_starts_id | exact Hp].
  - intros j' Hj'; rewrite Hj in Hj'; injection Hj' as <-.
    unfold apply_starts; apply nth_error_map_fixed; [exact Hj |].
    rewrite (Hp n j Hj), existsb_eqb_false; [reflexivity | exact Hnot].
Qed.

(** One iteration of the simulation loop with the Smart Scheduler, at an
    hour where less than 1 kW of solar power is available, keeps a
    medium-priority flexible job WAITING, unstarted and out of
    [currentlyRunning]. *)
Lemma sim_step_keeps_medium_flexible getSolar getTemp config st n :
  solar_available getSolar config (st_hour st) < 1 ->
  ids_are_positions (st_jobs st) ->
  medium_flexible_waiting n (st_jobs st) (st_running st) ->
  ids_are_positions (st_jobs (sim_step true getSolar getTemp config st)) /\
  medium_flexible_waiting n (st_jobs (sim_step true getSolar getTemp config st))
    (st_running (sim_step true getSolar getTemp config st)).
Proof.
  intros Hsol Hp (Hnr & j & Hj & Hst & Hsh & Hpr & Hfl).
  unfold sim_step, schedule.
  destruct (advance_running (st_hour st) (st_running st) (st_jobs st))
    as [jobs1 running1] eqn:E1.
  unfold advance_running in E1; injection E1 as E1a E1b.
  assert (Hp1 : ids_are_positions jobs1).
  { subst jobs1; apply ids_are_positions_map; [| exact Hp].
    intros a; cbn; destruct (mem_id (id a) (st_running st)); [apply runStep_id | reflexivity]. }
  assert (Hj1 : nth_error jobs1 n = Some j).
  { subst jobs1; apply nth_error_map_fixed; [exact Hj |].
    unfold mem_id; rewrite (Hp n j Hj), existsb_eqb_false; [reflexivity | exact Hnr]. }
  assert (Hnr1 : ~ In n running1).
  { subst running1; intros Hin; apply filter_In in Hin; tauto. }
  assert (Hm1 : medium_flexible_waiting n jobs1 []).
  { split; [intros [] | exists j; tauto]. }
  destruct (smart_schedule_skips_medium_flexible
              (solar_available getSolar config (st_hour st)) (st_temp st) (st_hour st)
              jobs1 n Hsol Hp1 Hm1) as (_ & Hnew & Hp2 & Hj2).
  specialize (Hj2 j Hj1).
  destruct (SmartScheduler_schedule (solar_available getSolar config (st_hour st))
              (st_temp st) (st_hour st) jobs1) as [newJobs jobs2] eqn:E2.
  cbn [fst snd] in Hnew, Hp2, Hj2.
  destruct (check_deadlines (st_hour st) jobs2) as [missed jobs3] eqn:E3.
  assert (Hj3 : jobs3 = map (fun j => snd (deadlineMissed (st_hour st) j)) jobs2).
  { rewrite <- check_deadlines_map, E3; reflexivity. }
  cbn [st_jobs st_running]; subst jobs3.
  split.
  - apply ids_are_positions_map; [| exact Hp2].
    intros a; exact (proj1 (deadlineMissed_fields (st_hour st) a)).
  - split.
    + intros Hin; apply add_new_jobs_in in Hin.
      destruct Hin as [Hin | (x & Hx & Hid)]; [contradiction |].
      apply Hnew; rewrite <- Hid; apply in_map; exact Hx.
    + exists (snd (deadlineMissed (st_hour st) j)).
      rewrite nth_error_map, Hj2; split; [reflexivity |].
      destruct (deadlineMissed_fields (st_hour st) j) as (_ & H1 & H2 & H3 & H4).
      cbn in *; rewrite H1, H2, H3, H4; tauto.
Qed.

(** Every iteration advances [currentHour] by [TIME_STEP_MINUTES / 60]. *)
Lemma sim_step_hour useSmart getSolar getTemp config st :
  st_hour (sim_step useSmart getSolar getTemp config st) =
  st_hour st + TIME_STEP_MINUTES / 60.0.
Proof.
  unfold sim_step; cbv zeta.
  destruct (advance_running _ _ _); cbn [fst snd].
  destruct (schedule _ _ _ _ _); cbn [fst snd].
  destruct (check_deadlines _ _); reflexivity.
Qed.

(** The run-level part only needs the solar power of the hours the loop
    visits: from [SIMULATION_START_HOUR] up to [SIMULATION_END_HOUR]. *)
Lemma sim_loop_keeps_medium_flexible fuel getSolar getTemp config st n :
  (forall h, SIMULATION_START_HOUR <= h < SIMULATION_END_HOUR ->
   solar_available getSolar config h < 1) ->
  SIMULATION_START_HOUR <= st_hour st ->
  ids_are_positions (st_jobs st) ->
  medium_flexible_waiting n (st_jobs st) (st_running st) ->
  medium_flexible_waiting n (st_jobs (sim_loop fuel true getSolar getTemp config st))
    (st_running (sim_loop fuel true getSolar getTemp config st)).
Proof.
  intros Hsol; revert st; induction fuel as [| fuel IH]; intros st Hh Hp Hm;
    cbn [sim_loop].
  - exact Hm.
  - destruct (Rlt_dec (st_hour st) SIMULATION_END_HOUR) as [Hlt |]; [| exact Hm].
    destruct (sim_step_keeps_medium_flexible getSolar getTemp config st n
                (Hsol (st_hour st) (conj Hh Hlt)) Hp Hm) as (Hp' & Hm').
    apply IH; try assumption.
    rewrite sim_step_hour; unfold TIME_STEP_MINUTES; lra.
Qed.

Lemma build_jobs_from_nth i apps m :
  nth_error (build_jobs_from i apps) m =
  option_map (job_of_appliance (i + m)) (nth_error apps m).
Proof.
  revert i m; induction apps as [| app rest IH]; intros i m; cbn.
  - destruct m; reflexivity.
  - destruct m as [| m]; cbn.
    + rewrite Nat.add_0_r; reflexivity.
    + rewrite IH; f_equal; f_equal; lia.
Qed.

Lemma build_jobs_ids apps : ids_are_positions (build_jobs apps).
Proof.
  intros m a Hm; unfold build_jobs in Hm; rewrite build_jobs_from_nth in Hm.
  destruct (nth_error apps m); cbn in Hm; [| discriminate].
  injection Hm as <-; reflexivity.
Qed.

(** C7: with less than 1 kW of solar power, a call of
    [SmartScheduler.schedule] returns no medium-priority flexible job, and
    leaves a stored medium-priority flexible WAITING job as it was; over a
    whole Smart run in which less than 1 kW of solar power is available at
    every hour of the simulated day [0, 24) (in particular 0 kW, for
    instance from a solar file of zero readings), the job built from a
    medium-priority flexible appliance ends the run WAITING and never
    started. *)
Theorem medium_flexible_waits_without_solar :
  (forall solar temp hour jobs n,
     solar < 1 -> ids_are_positions jobs ->
     medium_flexible_waiting n jobs [] ->
     (forall a, In a (fst (SmartScheduler_schedule solar temp hour jobs)) ->
      ~ (priority a = medium /\ flexible a = true)) /\
     (forall j, nth_error jobs n = Some j ->
      nth_error (snd (SmartScheduler_schedule solar temp hour jobs)) n = Some j)) /\
  (forall apps files config n app,
     (forall h, SIMULATION_START_HOUR <= h < SIMULATION_END_HOUR ->
      solar_available (createLookup (files_solar files)) config h < 1) ->
     nth_error apps n = Some app ->
     normalizePriority (app_priority app) = medium ->
     app_flexible app <> Some false ->
     exists e, nth_error (timeline (runSmartSimulation apps files config true)) n = Some e /\
       te_status e = WAITING /\ te_start e = None).
Proof.
  split.
  - intros solar temp hour jobs n Hs Hp Hm.
    destruct (smart_schedule_skips_medium_flexible solar temp hour jobs n Hs Hp Hm)
      as (H1 & _ & _ & H4).
    split; assumption.
  - intros apps files config n app Hsol Happ Hpr Hfl.
    assert (Hm0 : medium_flexible_waiting n (build_jobs apps) []).
    { split; [intros [] |].
      exists (job_of_appliance n app).
      unfold build_jobs; rewrite build_jobs_from_nth, Happ; cbn.
      split; [reflexivity |]; repeat split; try exact Hpr.
      destruct (app_flexible app) as [[|] |]; [reflexivity | congruence | reflexivity]. }
    pose proof (sim_loop_keeps_medium_flexible SIM_FUEL
                  (createLookup (files_solar files)) (createLookup (files_weather files))
                  config (initial_state (build_jobs apps)) n Hsol (Rle_refl _)
                  (build_jobs_ids apps) Hm0) as (_ & j & Hj & Hst & Hsh & _).
    exists (timeline_entry j); unfold runSmartSimulation; cbn [timeline].
    rewrite nth_error_map, Hj; split; [reflexivity |]; split; assumption.
Qed.

(* ------------------------------------------------------------------ *)
(** ** Jobs built from the appliance list *)

(** C2 (as stated): an appliance whose [deadlineHour] is null yields a Job
    whose deadline is hour 18. *)
Lemma job_deadline_ignores_spec_cex :
  nth_error (build_jobs [mkAppliance "pump" 2 (Some 1%R) "high" None None]) 0
    = Some (job_of_appliance 0 (mkAppliance "pump" 2 (Some 1%R) "high" None None)) /\
  deadline (job_of_appliance 0 (mkAppliance "pump" 2 (Some 1%R) "high" None None))
    <> app_deadlineHour (mkAppliance "pump" 2 (Some 1%R) "high" None None).
Proof. split; [reflexivity | cbn; discriminate]. Qed.

(** C2 (amended): the Job built for the appliance at position [i] has
    deadline hour 18 whatever the appliance gives, a duration (and initial
    remaining time) of [durationHours * 60] minutes when the duration is
    given and non-zero, and 120 minutes when it is missing or zero. *)
Theorem build_jobs_deadline_duration (apps : list Appliance) (i : nat) (app : Appliance) :
  nth_error apps i = Some app ->
  exists j, nth_error (build_jobs apps) i = Some j /\
    deadline j = Some 18%R /\
    remaining j = duration j /\
    (forall d, app_duration app = Some d -> d <> 0 -> duration j = d * 60) /\
    (app_duration app = None \/ app_duration app = Some 0%R -> duration j = 120).
Proof.
  intros Happ; exists (job_of_appliance i app).
  unfold build_jobs; rewrite build_jobs_from_nth, Happ; cbn.
  split; [reflexivity | split; [reflexivity | split; [reflexivity |]]].
  split.
  - intros d Hd Hne; rewrite Hd; decide_R.
  - intros [Hd | Hd]; rewrite Hd; [reflexivity | decide_R].
Qed.

Lemma build_jobs_deadline_duration_witness :
  exists j, nth_error (build_jobs [mkAppliance "ev" 7 (Some 3.5%R) "Low" None None;
                                   mkAppliance "pump" 2 None "Medium" None None]) 1 = Some j /\
    deadline j = Some 18%R /\
    remaining j = duration j /\
    (forall d, app_duration (mkAppliance "pump" 2 None "Medium" None None) = Some d ->
       d <> 0 -> duration j = d * 60) /\
    (app_duration (mkAppliance "pump" 2 None "Medium" None None) = None \/
     app_duration (mkAppliance "pump" 2 None "Medium" None None) = Some 0%R ->
     duration j = 120).
Proof.
  apply build_jobs_deadline_duration; reflexivity.
Defined.

(* ------------------------------------------------------------------ *)
(** ** Solar irradiance *)

Lemma ln_2_bounds : / 2 < ln 2 < 1.
Proof.
  split; [apply ln_lt_2 |].
  apply Rlt_le_trans with (ln (exp 1)); [| rewrite ln_exp; lra].
  apply ln_increasing; [lra |].
  pose proof (exp_ineq1 1 ltac:(lra)); lra.
Qed.

Lemma SIN_ALPHA_UNDERFLOW_bounds : 0.00015 < SIN_ALPHA_UNDERFLOW < 0.00032.
Proof.
  pose proof ln_2_bounds as HL; unfold SIN_ALPHA_UNDERFLOW.
  set (L := ln 2) in *.
  assert (HT : 0.168 / (1075 * L) * (1075 * L) = 0.168) by (field; lra).
  set (T := 0.168 / (1075 * L)) in *.
  split; nra.
Qed.

Lemma js_exp_nonneg x : 0 <= js_exp x.
Proof.
  unfold js_exp; destruct (Rlt_dec x EXP_UNDERFLOW); [lra | left; apply exp_pos].
Qed.

Lemma js_exp_lt_1 x : x < 0 -> js_exp x < 1.
Proof.
  intros Hx; unfold js_exp; destruct (Rlt_dec x EXP_UNDERFLOW); [lra |].
  rewrite <- exp_0; apply exp_increasing; exact Hx.
Qed.

(** For a positive [sinAlpha], [Math.exp(-0.168 / sinAlpha)] underflows
    exactly when [sinAlpha < SIN_ALPHA_UNDERFLOW]. *)
Lemma ibn_exponent_underflow s :
  0 < s -> (- (0.168) / s < EXP_UNDERFLOW <-> s < SIN_ALPHA_UNDERFLOW).
Proof.
  intros Hs; pose proof ln_2_bounds as HL.
  unfold EXP_UNDERFLOW, SIN_ALPHA_UNDERFLOW; set (L := ln 2) in *.
  assert (HT : 0.168 / (1075 * L) * (1075 * L) = 0.168) by (field; lra).
  assert (HQ : 0.168 / s * s = 0.168) by (field; lra).
  replace (- (0.168) / s) with (- (0.168 / s)) by (field; lra).
  set (T := 0.168 / (1075 * L)) in *; set (Q := 0.168 / s) in *.
  split; intros H; nra.
Qed.

Lemma js_exp_ibn_zero s :
  0 < s < SIN_ALPHA_UNDERFLOW -> js_exp (- (0.168) / s) = 0.
Proof.
  intros [Hs Hlt]; unfold js_exp.
  destruct (Rlt_dec (- (0.168) / s) EXP_UNDERFLOW) as [_ | Hn]; [reflexivity |].
  exfalso; apply Hn, (ibn_exponent_underflow s Hs); exact Hlt.
Qed.

Lemma js_exp_ibn_pos s :
  SIN_ALPHA_UNDERFLOW <= s -> 0 < js_exp (- (0.168) / s).
Proof.
  intros Hle; pose proof SIN_ALPHA_UNDERFLOW_bounds as Hb; unfold js_exp.
  destruct (Rlt_dec (- (0.168) / s) EXP_UNDERFLOW) as [Hlt | _]; [| apply exp_pos].
  apply (ibn_exponent_underflow s) in Hlt; lra.
Qed.

Lemma js_exp_ibn_lt_1 s : 0 < s -> js_exp (- (0.168) / s) < 1.
Proof.
  intros Hs; apply js_exp_lt_1.
  apply Rmult_lt_reg_r with s; [lra |].
  unfold Rdiv; rewrite Rmult_assoc, Rinv_l by lra; lra.
Qed.

(** Above the horizon, when [Math.exp] does not underflow, the beam normal
    irradiance is positive and the sum of the three components is positive. *)
Lemma irradiance_components_pos (s X b c : R) :
  0 < s -> 0 < X -> 0 <= b -> -1 <= c <= 1 ->
  0 < X * b + 0.095 * X * ((1 + c) / 2) + X * (s + 0.095) * 0.2 * ((1 - c) / 2).
Proof.
  intros Hs HX Hb Hc.
  replace (X * b + 0.095 * X * ((1 + c) / 2) + X * (s + 0.095) * 0.2 * ((1 - c) / 2))
    with (X * (b + 0.095 * ((1 + c) / 2) + (s + 0.095) * 0.2 * ((1 - c) / 2))) by ring.
  apply Rmult_lt_0_compat; [exact HX |].
  assert (0 <= s * (1 - c)) by (apply Rmult_le_pos; lra).
  nra.
Qed.

Ltac irradiance_parts :=
  unfold calculateIrradiance; cbv zeta;
  match goal with |- context [(1 + cos ?T) / 2] => set (c := cos T) end;
  match goal with |- context [Rmax 0 (sin ?E * ?F + ?G)] => set (b := Rmax 0 (sin E * F + G)) end.

Lemma calculateIrradiance_nonneg d h lat tilt : 0 <= calculateIrradiance d h lat tilt.
Proof.
  unfold calculateIrradiance; cbv zeta.
  destruct (Rle_dec (solarAltitudeSine d h lat) 0); [lra | apply Rmax_l].
Qed.

Lemma calculateIrradiance_pos d h lat tilt :
  SIN_ALPHA_UNDERFLOW <= solarAltitudeSine d h lat -> 0 < calculateIrradiance d h lat tilt.
Proof.
  intros Hs; pose proof SIN_ALPHA_UNDERFLOW_bounds as Hb; irradiance_parts.
  destruct (Rle_dec (solarAltitudeSine d h lat) 0) as [Hle | _]; [lra |].
  eapply Rlt_le_trans; [| apply Rmax_r].
  apply irradiance_components_pos.
  - lra.
  - apply Rmult_lt_0_compat; [lra | apply js_exp_ibn_pos; exact Hs].
  - apply Rmax_l.
  - apply COS_bound.
Qed.

(** When the sun is above the horizon but [sinAlpha] is below
    [SIN_ALPHA_UNDERFLOW], [Math.exp] underflows, the beam normal irradiance
    is 0 and so is every component. *)
Lemma calculateIrradiance_underflow d h lat tilt :
  0 < solarAltitudeSine d h lat < SIN_ALPHA_UNDERFLOW ->
  calculateIrradiance d h lat tilt = 0.
Proof.
  intros Hs; unfold calculateIrradiance; cbv zeta.
  destruct (Rle_dec (solarAltitudeSine d h lat) 0); [lra |].
  rewrite (js_exp_ibn_zero _ Hs).
  match goal with |- Rmax 0 ?x = 0 => replace x with 0 by ring end.
  unfold Rmax; destruct (Rle_dec 0 0); reflexivity.
Qed.

(** C9 (amended): for every day, hour, latitude and tilt,
    [calculateIrradiance] is 0 when the sine of the solar altitude is
    non-positive and is never negative; at solar noon (hour 12) it is
    strictly positive when the sine of the solar altitude is at least
    [SIN_ALPHA_UNDERFLOW] (about 2.2547e-4), and at any hour it is 0 when
    that sine is positive but below [SIN_ALPHA_UNDERFLOW], where
    [Math.exp(-0.168 / sinAlpha)] underflows to 0. *)
Theorem calculateIrradiance_horizon_noon (dayOfYear hour latitude : R) (tilt : option R) :
  (solarAltitudeSine dayOfYear hour latitude <= 0 ->
   calculateIrradiance dayOfYear hour latitude tilt = 0) /\
  0 <= calculateIrradiance dayOfYear hour latitude tilt /\
  (SIN_ALPHA_UNDERFLOW <= solarAltitudeSine dayOfYear 12 latitude ->
   0 < calculateIrradiance dayOfYear 12 latitude tilt) /\
  (0 < solarAltitudeSine dayOfYear hour latitude < SIN_ALPHA_UNDERFLOW ->
   calculateIrradiance dayOfYear hour latitude tilt = 0).
Proof.
  split; [| split; [| split]].
  - intros Hle; unfold calculateIrradiance; cbv zeta.
    destruct (Rle_dec (solarAltitudeSine dayOfYear hour latitude) 0); [lra | lra].
  - apply calculateIrradiance_nonneg.
  - apply calculateIrradiance_pos.
  - apply calculateIrradiance_underflow.
Qed.

(** On day 81 the declination is 0. *)
Lemma declinationRad_81 : declinationRad 81 = 0.
Proof.
  unfold declinationRad, D2R; cbv zeta.
  replace (360 / 365 * (284 + 81) * (PI / 180)) with (2 * PI) by field.
  rewrite sin_2PI; ring.
Qed.

Lemma solarAltitudeSine_81_equator h : solarAltitudeSine 81 h 0 = cos (hourAngleRad h).
Proof.
  unfold solarAltitudeSine; cbv zeta.
  rewrite declinationRad_81, Rmult_0_l, sin_0, cos_0; ring.
Qed.

Lemma solarAltitudeSine_81_noon_lat lat : solarAltitudeSine 81 12 lat = cos (lat * D2R).
Proof.
  unfold solarAltitudeSine, hourAngleRad; cbv zeta.
  rewrite declinationRad_81, sin_0, cos_0.
  replace (15 * (12 - 12) * D2R) with 0 by ring.
  rewrite cos_0; ring.
Qed.

(** On day 81 at latitude 89.999 the noon sun is 0.001 degrees above the
    horizon: [sinAlpha] is about 1.75e-5, below [SIN_ALPHA_UNDERFLOW]. *)
Lemma solarAltitudeSine_polar_noon :
  0 < solarAltitudeSine 81 12 89.999 < SIN_ALPHA_UNDERFLOW.
Proof.
  rewrite solarAltitudeSine_81_noon_lat; unfold D2R.
  rewrite <- sin_shift.
  replace (PI / 2 - 89.999 * (PI / 180)) with (0.001 * (PI / 180)) by lra.
  pose proof PI_RGT_0; pose proof PI_4; pose proof SIN_ALPHA_UNDERFLOW_bounds.
  split.
  - apply sin_gt_0; lra.
  - pose proof (sin_lt_x (0.001 * (PI / 180)) ltac:(lra)); lra.
Qed.

(** C9 (as stated): at solar noon, with the sun above the horizon,
    [calculateIrradiance] is strictly positive.  On day 81 at latitude
    89.999 the noon sun is above the horizon, yet [Math.exp] underflows and
    the irradiance is 0. *)
Lemma calculateIrradiance_noon_underflow_cex :
  0 < solarAltitudeSine 81 12 89.999 /\ calculateIrradiance 81 12 89.999 None = 0.
Proof.
  split; [apply solarAltitudeSine_polar_noon |].
  apply calculateIrradiance_underflow, solarAltitudeSine_polar_noon.
Qed.

Lemma calculateIrradiance_horizon_noon_witness :
  (solarAltitudeSine 81 0 0 <= 0 /\ calculateIrradiance 81 0 0 None = 0) /\
  (SIN_ALPHA_UNDERFLOW <= solarAltitudeSine 81 12 0 /\
   0 < calculateIrradiance 81 12 0 None) /\
  (0 < solarAltitudeSine 81 12 89.999 < SIN_ALPHA_UNDERFLOW /\
   calculateIrradiance 81 12 89.999 None = 0).
Proof.
  assert (Hmid : solarAltitudeSine 81 0 0 = -1).
  { rewrite solarAltitudeSine_81_equator; unfold hourAngleRad, D2R; cbv zeta.
    replace (15 * (0 - 12) * (PI / 180)) with (- PI) by field.
    rewrite cos_neg, cos_PI; reflexivity. }
  assert (Hnoon : solarAltitudeSine 81 12 0 = 1).
  { rewrite solarAltitudeSine_81_equator; unfold hourAngleRad, D2R; cbv zeta.
    replace (15 * (12 - 12) * (PI / 180)) with 0 by ring.
    apply cos_0. }
  pose proof SIN_ALPHA_UNDERFLOW_bounds as Hb.
  pose proof solarAltitudeSine_polar_noon as Hp.
  split; [split | split; split].
  - rewrite Hmid; lra.
  - apply (proj1 (calculateIrradiance_horizon_noon 81 0 0 None)); rewrite Hmid; lra.
  - rewrite Hnoon; lra.
  - apply (proj1 (proj2 (proj2 (calculateIrradiance_horizon_noon 81 0 0 None)))).
    rewrite Hnoon; lra.
  - exact Hp.
  - apply (proj2 (proj2 (proj2 (calculateIrradiance_horizon_noon 81 12 89.999 None)))).
    exact Hp.
Defined.

(* ------------------------------------------------------------------ *)
(** ** A run with no jobs *)

Lemma Int_part_hour_range h : 0 <= h < 24 -> (0 <= Int_part h <= 23)%Z.
Proof.
  intros [H0 H1]; destruct (base_Int_part h) as [Hle Hgt].
  assert (-1 < Int_part h)%Z by (apply lt_IZR; lra).
  assert (Int_part h < 24)%Z by (apply lt_IZR; lra).
  lia.
Qed.

Lemma hour_map_get_untimed (pts : list StandardizedPoint) h :
  Forall (fun p => timestamp p = None) pts -> hour_map_get pts h = None.
Proof.
  unfold hour_map_get; intros Hall.
  assert (Hgen : forall acc, fold_left (fun acc p =>
      match timestamp p with
      | Some t => if Req_EM_T t h then Some (value p) else acc
      | None => acc
      end) pts acc = acc).
  { induction Hall as [| p rest Hp _ IH]; intros acc; cbn; [reflexivity |].
    rewrite Hp; apply IH. }
  apply Hgen.
Qed.

Lemma createLookup_cool_weather h :
  0 <= h < 24 -> createLookup (Some cool_weather) h = Some 20%R.
Proof.
  intros Hh; pose proof (Int_part_hour_range h Hh) as Hr.
  unfold createLookup, cool_weather.
  change (repeat (mkPoint None 20) 24) with (mkPoint None 20 :: repeat (mkPoint None 20) 23).
  cbv beta iota.
  change (mkPoint None 20 :: repeat (mkPoint None 20) 23) with (repeat (mkPoint None 20) 24).
  rewrite hour_map_get_untimed by (apply Forall_forall; intros p Hp;
    apply repeat_spec in Hp; subst p; reflexivity).
  unfold js_floor.
  assert (Hleb : Z.leb 0 (Int_part h) = true) by (apply Z.leb_le; lia).
  rewrite Hleb, nth_error_repeat by lia.
  reflexivity.
Qed.

(** Untimed readings are looked up by [Math.floor(hour)]. *)
Lemma createLookup_untimed_repeat v h :
  0 <= h < 24 -> createLookup (Some (repeat (mkPoint None v) 24)) h = Some v.
Proof.
  intros Hh; pose proof (Int_part_hour_range h Hh) as Hr.
  unfold createLookup.
  change (repeat (mkPoint None v) 24) with (mkPoint None v :: repeat (mkPoint None v) 23).
  cbv beta iota.
  change (mkPoint None v :: repeat (mkPoint None v) 23) with (repeat (mkPoint None v) 24).
  rewrite hour_map_get_untimed by (apply Forall_forall; intros p Hp;
    apply repeat_spec in Hp; subst p; reflexivity).
  unfold js_floor.
  assert (Hleb : Z.leb 0 (Int_part h) = true) by (apply Z.leb_le; lia).
  rewrite Hleb, nth_error_repeat by lia.
  reflexivity.
Qed.

Lemma medium_flexible_waits_without_solar_witness :
  (forall h, SIMULATION_START_HOUR <= h < SIMULATION_END_HOUR ->
     solar_available (createLookup (Some no_sun)) default_config h < 1) /\
  exists e, nth_error (timeline (runSmartSimulation
                [mkAppliance "pump" 2 (Some 1%R) "Medium" None None]
                (mkFiles (Some no_sun) None None) default_config true)) 0 = Some e /\
    te_status e = WAITING /\ te_start e = None.
Proof.
  assert (Hsol : forall h, SIMULATION_START_HOUR <= h < SIMULATION_END_HOUR ->
            solar_available (createLookup (Some no_sun)) default_config h < 1).
  { intros h Hh; unfold solar_available, no_sun.
    rewrite createLookup_untimed_repeat
      by (unfold SIMULATION_START_HOUR, SIMULATION_END_HOUR in Hh; lra).
    lra. }
  split; [exact Hsol |].
  apply (proj2 medium_flexible_waits_without_solar
           [mkAppliance "pump" 2 (Some 1%R) "Medium" None None]
           (mkFiles (Some no_sun) None None) default_config 0%nat
           (mkAppliance "pump" 2 (Some 1%R) "Medium" None None) Hsol).
  - reflexivity.
  - reflexivity.
  - discriminate.
Defined.

Lemma getSolarPower_default_nonneg h : 0 <= getSolarPower h None None None.
Proof.
  unfold getSolarPower, with_default, MAX_SOLAR_KW, SOLAR_EFFICIENCY; cbv zeta.
  pose proof (calculateIrradiance_nonneg 172 h 21.0 (Some 21.0%R)).
  assert (0 <= calculateIrradiance 172 h 21.0 (Some 21.0%R) / 1000.0)
    by (unfold Rdiv; apply Rmult_le_pos; lra).
  apply Rmult_le_pos; [apply Rmult_le_pos |]; lra.
Qed.

Section ZeroEnergy.

Variable getSolar getTemp : R -> option R.
Variable config : SimulationConfig.
Hypothesis solar_nonneg : forall h, 0 <= solar_available getSolar config h.
Hypothesis ambient_cool :
  forall h, 0 <= h < SIMULATION_END_HOUR -> ambient_temp getTemp config h <= TEMP_THRESHOLD.

Lemma sim_step_zero_energy useSmart st :
  zero_energy_state st -> st_hour st < SIMULATION_END_HOUR ->
  zero_energy_state (sim_step useSmart getSolar getTemp config st).
Proof.
  intros (Hj & Hr & HT & Hs & Hg & Hc & Hh) Hlt.
  pose proof (solar_nonneg (st_hour st)) as Hsa.
  pose proof (ambient_cool (st_hour st) (conj Hh Hlt)) as Hta.
  unfold sim_step.
  set (sa := solar_available getSolar config (st_hour st)) in *.
  set (ta := ambient_temp getTemp config (st_hour st)) in *.
  rewrite Hj, Hr.
  destruct useSmart; cbn.
  all: unfold zero_energy_state; cbn.
  all: rewrite Hs, Hg, Hc.
  all: assert (Hcool : getCoolingPowerKw (st_temp st) 0 = 0)
         by (unfold getCoolingPowerKw; decide_R).
  all: rewrite Hcool, (Rmin_left 0 sa Hsa).
  all: replace (Rmax 0 (0 - 0)) with 0 by (unfold Rmax; decide_R).
  all: unfold HEAT_ACCUMULATION, COOLING_EFFICIENCY, THERMAL_DISSIPATION,
         TIME_STEP_MINUTES, TEMP_THRESHOLD in *.
  all: repeat split; lra.
Qed.

Lemma sim_loop_zero_energy useSmart fuel st :
  zero_energy_state st ->
  zero_energy_state (sim_loop fuel useSmart getSolar getTemp config st).
Proof.
  revert st; induction fuel as [| f IH]; intros st Hst; cbn; [exact Hst |].
  destruct (Rlt_dec (st_hour st) SIMULATION_END_HOUR); [| exact Hst].
  apply IH, sim_step_zero_energy; assumption.
Qed.

End ZeroEnergy.

(** C10: with no jobs, no solar data, the default configuration and a day of
    historical ambient temperatures at 20 degrees (below the cooling
    threshold), the run accumulates no solar and no grid energy, and the
    returned [energy.solarPct] is the quotient 0/0 (NaN), times 100. *)
Theorem solarPct_nan_without_energy :
  let m := runSmartSimulation [] (mkFiles None (Some cool_weather) None)
             default_config true in
  energy_solar m = 0 /\ energy_grid m = 0 /\ energy_cooling m = 0 /\
  energy_total m = 0 /\ energy_solarPct m = JNaN.
Proof.
  cbv zeta; unfold runSmartSimulation; cbv zeta.
  destruct (sim_loop_zero_energy
              (createLookup (files_solar (mkFiles None (Some cool_weather) None)))
              (createLookup (files_weather (mkFiles None (Some cool_weather) None)))
              default_config)
    with (useSmart := true) (fuel := SIM_FUEL) (st := initial_state (build_jobs []))
    as (_ & _ & _ & Hs & Hg & Hc & _).
  - intros h; unfold solar_available; cbn [files_solar createLookup].
    apply getSolarPower_default_nonneg.
  - intros h Hh; unfold ambient_temp; cbn [files_weather].
    rewrite createLookup_cool_weather by exact Hh; unfold TEMP_THRESHOLD; lra.
  - unfold zero_energy_state, initial_state, IDEAL_TEMP, TEMP_THRESHOLD,
      SIMULATION_START_HOUR; cbn; repeat split; lra.
  - cbn [energy_solar energy_grid energy_cooling energy_total energy_solarPct].
    rewrite Hs, Hg, Hc.
    repeat split; try ring.
    unfold js_div, js_mul_pos; decide_R; reflexivity.
Qed.

(* ================================================================== *)
(** * Further properties of the code *)

(* ------------------------------------------------------------------ *)
(** ** Ambient temperature *)

Lemma js_mod_int x y : exists t : Z, js_mod x y = x - y * IZR t.
Proof. unfold js_mod; cbv zeta; eexists; reflexivity. Qed.

Lemma cos_shift_Z x t : cos (x - 2 * PI * IZR t) = cos x.
Proof.
  destruct (Z.le_gt_cases 0 t) as [Hle | Hgt].
  - replace t with (Z.of_nat (Z.to_nat t)) by lia.
    set (k := Z.to_nat t).
    rewrite <- INR_IZR_INZ, <- (cos_period (x - 2 * PI * INR k) k).
    f_equal; ring.
  - replace t with (- Z.of_nat (Z.to_nat (- t)))%Z by lia.
    set (k := Z.to_nat (- t)).
    rewrite opp_IZR, <- INR_IZR_INZ.
    replace (x - 2 * PI * - INR k) with (x + 2 * INR k * PI) by ring.
    apply cos_period.
Qed.

(** [hour % 24] only shifts the phase by whole periods. *)
Lemma getAmbientTemp_closed hour minTemp maxTemp :
  getAmbientTemp hour minTemp maxTemp =
  (with_default DEF_MIN_TEMP minTemp + with_default DEF_MAX_TEMP maxTemp) / 2 +
  (with_default DEF_MAX_TEMP maxTemp - with_default DEF_MIN_TEMP minTemp) / 2 *
  cos ((hour - PEAK_TEMP_HOUR) * (2 * PI / 24)).
Proof.
  unfold getAmbientTemp; cbv zeta.
  destruct (js_mod_int hour 24) as [t ->].
  replace ((hour - 24 * IZR t - PEAK_TEMP_HOUR) * (2 * PI / 24))
    with ((hour - PEAK_TEMP_HOUR) * (2 * PI / 24) - 2 * PI * IZR t) by field.
  rewrite cos_shift_Z; reflexivity.
Qed.

(** X1: [getAmbientTemp] stays between [minTemp] and [maxTemp] (defaults 26 and
    42) when the minimum is not above the maximum, reaches the maximum at
    hour 14 and the minimum at hour 2. *)
Theorem getAmbientTemp_bounds (hour : R) (minTemp maxTemp : option R) :
  with_default DEF_MIN_TEMP minTemp <= with_default DEF_MAX_TEMP maxTemp ->
  with_default DEF_MIN_TEMP minTemp <= getAmbientTemp hour minTemp maxTemp
    <= with_default DEF_MAX_TEMP maxTemp /\
  getAmbientTemp 14 minTemp maxTemp = with_default DEF_MAX_TEMP maxTemp /\
  getAmbientTemp 2 minTemp maxTemp = with_default DEF_MIN_TEMP minTemp.
Proof.
  intros Hle; rewrite !getAmbientTemp_closed.
  set (m := with_default DEF_MIN_TEMP minTemp) in *.
  set (M := with_default DEF_MAX_TEMP maxTemp) in *.
  unfold PEAK_TEMP_HOUR; replace 14.0 with 14 by lra.
  split; [| split].
  - pose proof (COS_bound ((hour - 14) * (2 * PI / 24))) as [Hc1 Hc2].
    split; nra.
  - replace ((14 - 14) * (2 * PI / 24)) with 0 by field.
    rewrite cos_0; field.
  - replace ((2 - 14) * (2 * PI / 24)) with (- PI) by field.
    rewrite cos_neg, cos_PI; field.
Qed.

Lemma getAmbientTemp_bounds_witness :
  (26 <= getAmbientTemp 5.5 None None <= 42 /\
   getAmbientTemp 14 None None = 42 /\ getAmbientTemp 2 None None = 26).
Proof.
  pose proof (getAmbientTemp_bounds 5.5 None None) as H.
  unfold with_default, DEF_MIN_TEMP, DEF_MAX_TEMP in H.
  destruct H as [H1 [H2 H3]]; [lra |].
  split; [lra | split; [rewrite H2; lra | rewrite H3; lra]].
Defined.

(** X2: For every hour, negative or beyond 24 included, [getAmbientTemp] is the
    cosine curve of period 24 hours peaking at hour 14:
    [(min + max) / 2 + (max - min) / 2 * cos((hour - 14) * 2 pi / 24)];
    in particular it takes the same value at [hour] and [hour + 24]. *)
Theorem getAmbientTemp_daily_cosine (hour : R) (minTemp maxTemp : option R) :
  getAmbientTemp hour minTemp maxTemp =
  (with_default DEF_MIN_TEMP minTemp + with_default DEF_MAX_TEMP maxTemp) / 2 +
  (with_default DEF_MAX_TEMP maxTemp - with_default DEF_MIN_TEMP minTemp) / 2 *
  cos ((hour - 14) * (2 * PI / 24)) /\
  getAmbientTemp (hour + 24) minTemp maxTemp = getAmbientTemp hour minTemp maxTemp.
Proof.
  rewrite !getAmbientTemp_closed; unfold PEAK_TEMP_HOUR; replace 14.0 with 14 by lra.
  split; [reflexivity |].
  replace ((hour + 24 - 14) * (2 * PI / 24))
    with ((hour - 14) * (2 * PI / 24) + 2 * INR 1 * PI) by (rewrite INR_1; field).
  rewrite cos_period; reflexivity.
Qed.

(* ------------------------------------------------------------------ *)
(** ** Cooling power *)

(** X3: [getCoolingPowerKw] is never negative, is 0 at or below the 25 degree
    threshold, is positive above it for a non-negative load, and never
    decreases when the hub temperature or the load increases. *)
Theorem getCoolingPowerKw_shape (hubTemp computeLoadKw : R) :
  0 <= getCoolingPowerKw hubTemp computeLoadKw /\
  (hubTemp <= TEMP_THRESHOLD -> getCoolingPowerKw hubTemp computeLoadKw = 0) /\
  (TEMP_THRESHOLD < hubTemp -> 0 <= computeLoadKw ->
   0 < getCoolingPowerKw hubTemp computeLoadKw) /\
  (forall hubTemp' computeLoadKw', hubTemp <= hubTemp' -> computeLoadKw <= computeLoadKw' ->
   getCoolingPowerKw hubTemp computeLoadKw <= getCoolingPowerKw hubTemp' computeLoadKw').
Proof.
  unfold getCoolingPowerKw, TEMP_THRESHOLD, COOLING_FACTOR, LOAD_COOLING_FACTOR,
    COOLING_COP; cbv zeta; replace 0.0 with 0 by lra.
  split; [| split; [| split]].
  - decide_R; apply Rmax_l.
  - intros H; decide_R.
  - intros H HL; decide_R.
    eapply Rlt_le_trans; [| apply Rmax_r]; lra.
  - intros T' L' HT HL; decide_R; try apply Rmax_l.
    apply Rle_max_compat_l; lra.
Qed.

Lemma getCoolingPowerKw_shape_witness :
  getCoolingPowerKw 24 3 = 0 /\ 0 < getCoolingPowerKw 30 2 /\
  getCoolingPowerKw 30 2 <= getCoolingPowerKw 31 2.
Proof.
  split; [| split].
  - apply (proj1 (proj2 (getCoolingPowerKw_shape 24 3))); unfold TEMP_THRESHOLD; lra.
  - apply (proj1 (proj2 (proj2 (getCoolingPowerKw_shape 30 2)))); unfold TEMP_THRESHOLD; lra.
  - apply (proj2 (proj2 (proj2 (getCoolingPowerKw_shape 30 2)))); lra.
Defined.

(* ------------------------------------------------------------------ *)
(** ** Irradiance and solar power *)

(** The shape [sin a sin b + cos a cos b k] of [sinAlpha] and [cosTheta] is
    at most 1 when [k] is a cosine. *)
Lemma sin_cos_form_le_1 a b k :
  -1 <= k <= 1 -> sin a * sin b + cos a * cos b * k <= 1.
Proof.
  intros Hk.
  pose proof (sin2_cos2 a) as Ha; pose proof (sin2_cos2 b) as Hb.
  unfold Rsqr in Ha, Hb.
  assert (0 <= (sin a - sin b) * (sin a - sin b)) by apply Rle_0_sqr.
  assert (0 <= (cos a - cos b * k) * (cos a - cos b * k)) by apply Rle_0_sqr.
  assert (0 <= cos b * cos b * (1 - k * k)).
  { apply Rmult_le_pos; [apply Rle_0_sqr | nra]. }
  nra.
Qed.

Lemma solarAltitudeSine_le_1 d h lat : solarAltitudeSine d h lat <= 1.
Proof. unfold solarAltitudeSine; cbv zeta; apply sin_cos_form_le_1, COS_bound. Qed.

Lemma irradiance_components_le (s X b c : R) :
  0 < s <= 1 -> 0 <= X -> 0 <= b <= 1 -> -1 <= c <= 1 ->
  X * b + 0.095 * X * ((1 + c) / 2) + X * (s + 0.095) * 0.2 * ((1 - c) / 2)
    <= X * (1 + 0.2 * (1 + 0.095)).
Proof.
  intros Hs HX Hb Hc.
  replace (X * b + 0.095 * X * ((1 + c) / 2) + X * (s + 0.095) * 0.2 * ((1 - c) / 2))
    with (X * (b + 0.095 * ((1 + c) / 2) + (s + 0.095) * 0.2 * ((1 - c) / 2))) by ring.
  apply Rmult_le_compat_l; [lra |].
  assert (s * (1 - c) <= 1 * (1 - c)) by (apply Rmult_le_compat_r; lra).
  nra.
Qed.

Lemma calculateIrradiance_le d h lat tilt :
  calculateIrradiance d h lat tilt < 1160 * (1 + 0.2 * (1 + 0.095)).
Proof.
  irradiance_parts.
  destruct (Rle_dec (solarAltitudeSine d h lat) 0) as [_ | Hgt]; [lra |].
  apply Rmax_lub_lt; [lra |].
  pose proof (solarAltitudeSine_le_1 d h lat) as Hs1.
  set (s := solarAltitudeSine d h lat) in *.
  pose proof (js_exp_ibn_lt_1 s ltac:(lra)) as HX.
  pose proof (js_exp_nonneg (- (0.168) / s)).
  set (E := js_exp (- (0.168) / s)) in *.
  eapply Rle_lt_trans.
  - apply irradiance_components_le.
    + lra.
    + apply Rmult_le_pos; lra.
    + split; [apply Rmax_l | apply Rmax_lub; [lra | apply sin_cos_form_le_1, COS_bound]].
    + apply COS_bound.
  - nra.
Qed.

(** X4: [calculateIrradiance] stays below [1160 * (1 + 0.2 * 1.095)] = 1414.04
    W/m2 for every day, hour, latitude and tilt: the beam normal irradiance
    is below its air-mass-0 constant 1160 and the beam, diffuse and
    reflected factors add up to at most 1.219. *)
Theorem calculateIrradiance_upper_bound (dayOfYear hour latitude : R) (tilt : option R) :
  calculateIrradiance dayOfYear hour latitude tilt < 1414.04.
Proof.
  pose proof (calculateIrradiance_le dayOfYear hour latitude tilt); lra.
Qed.






(* ------------------------------------------------------------------ *)
(** ** The job life cycle *)

Ltac jsimpl := cbn [id name powerKw duration remaining priority deadline status penalized
  startHour flexible set_status set_remaining set_penalized set_startHour status_rank].

Ltac job_cases_run j :=
  unfold runStep, start; destruct (status j) eqn:?; jsimpl;
  destruct (startHour j) eqn:?; jsimpl;
  repeat match goal with |- context [Rle_dec ?a ?b] => destruct (Rle_dec a b) end; jsimpl.

Lemma static_start h j : static_eq j (start h j).
Proof.
  unfold static_eq, start.
  destruct (status j); jsimpl; [destruct (startHour j); jsimpl |..]; repeat split.
Qed.

Lemma static_runStep dt h j : static_eq j (runStep dt h j).
Proof. unfold static_eq; job_cases_run j; repeat split. Qed.

Lemma static_deadline h j : static_eq j (snd (deadlineMissed h j)).
Proof.
  unfold static_eq, deadlineMissed.
  destruct (deadline j) eqn:Ed; cbn [fst snd];
    [destruct (Rlt_dec _ _); cbn [fst snd];
       [destruct (status j), (penalized j); cbn [fst snd]; jsimpl |] |];
    repeat split; congruence.
Qed.

Lemma exec_call_deadline j h : fst (exec_call j (CallDeadlineMissed h)) = snd (deadlineMissed h j).
Proof. cbn [exec_call]; destruct (deadlineMissed h j); reflexivity. Qed.

Lemma exec_call_static j c : static_eq j (fst (exec_call j c)).
Proof.
  destruct c as [h | dt h | h];
    [apply static_start | apply static_runStep | rewrite exec_call_deadline; apply static_deadline].
Qed.

Lemma exec_call_forward j c :
  (status_rank (status j) <= status_rank (status (fst (exec_call j c))))%nat /\
  (forall s, startHour j = Some s -> startHour (fst (exec_call j c)) = Some s).
Proof.
  destruct c as [h | dt h | h].
  - cbn [exec_call fst]; unfold start.
    destruct (status j) eqn:Hs; jsimpl; [destruct (startHour j) eqn:Ho; jsimpl |..];
      rewrite ?Hs, ?Ho; split; try (intros ? E; congruence); jsimpl; lia.
  - cbn [exec_call fst]; job_cases_run j; rewrite ?Heqj0, ?Heqo;
      split; try (intros ? E; congruence); jsimpl; try lia.
  - rewrite exec_call_deadline.
    pose proof (deadlineMissed_fields h j) as E; cbv zeta in E;
      destruct E as (_ & Es & Eh & _).
    rewrite Es, Eh; split; auto.
Qed.

Lemma exec_call_waiting_iff j c :
  (status j = WAITING <-> startHour j = None) ->
  (status (fst (exec_call j c)) = WAITING <-> startHour (fst (exec_call j c)) = None).
Proof.
  destruct c as [h | dt h | h].
  - cbn [exec_call fst]; unfold start.
    destruct (status j) eqn:Hs; jsimpl; [destruct (startHour j) eqn:Ho; jsimpl |..];
      rewrite ?Hs, ?Ho; firstorder congruence.
  - cbn [exec_call fst]; job_cases_run j; rewrite ?Heqj0, ?Heqo; jsimpl; firstorder congruence.
  - rewrite exec_call_deadline.
    pose proof (deadlineMissed_fields h j) as E; cbv zeta in E;
      destruct E as (_ & Es & Eh & _).
    rewrite Es, Eh; auto.
Qed.

(** X6: Through any sequence of calls to [start], [runStep] and
    [deadlineMissed], a job's status only moves forward (WAITING, then
    RUNNING, then DONE, never back; DONE is final), and once its start
    hour is set it never changes. *)
Theorem job_lifecycle_forward (j : Job) (cs : list job_call) :
  (status_rank (status j) <= status_rank (status (exec_calls j cs)))%nat /\
  (forall s, startHour j = Some s -> startHour (exec_calls j cs) = Some s).
Proof.
  revert j; induction cs as [| c rest IH]; intros j; cbn; [split; auto |].
  destruct (exec_call_forward j c) as [H1 H2].
  destruct (IH (fst (exec_call j c))) as [H3 H4].
  split; [lia | auto].
Qed.

Lemma job_lifecycle_forward_witness :
  (status_rank (status running_heater) <=
   status_rank (status (exec_calls running_heater [CallRunStep 10 3; CallStart 4])))%nat /\
  startHour (exec_calls (start 2 waiting_pump) [CallRunStep 10 3; CallStart 4]) = Some 2%R.
Proof.
  split.
  - apply (proj1 (job_lifecycle_forward running_heater [CallRunStep 10 3; CallStart 4])).
  - apply (proj2 (job_lifecycle_forward (start 2 waiting_pump) [CallRunStep 10 3; CallStart 4])).
    reflexivity.
Defined.

(** X7: No call to [start], [runStep] or [deadlineMissed] changes a job's
    identity, name, power, duration, priority, deadline or flexibility. *)
Theorem job_methods_keep_static_fields (j : Job) (cs : list job_call) :
  static_eq j (exec_calls j cs).
Proof.
  revert j; induction cs as [| c rest IH]; intros j; cbn.
  - unfold static_eq; repeat split.
  - destruct (exec_call_static j c) as (E1 & E2 & E3 & E4 & E5 & E6 & E7).
    destruct (IH (fst (exec_call j c))) as (F1 & F2 & F3 & F4 & F5 & F6 & F7).
    unfold static_eq; repeat split; congruence.
Qed.

(** X8: A job built by the constructor is WAITING exactly when its start hour
    is null, after any sequence of calls to [start], [runStep] and
    [deadlineMissed]: the start hour is set exactly when the job leaves
    WAITING. *)
Theorem new_job_waiting_iff_unstarted (i : nat) (nm : string) (p durationMin : R)
    (prio : string) (deadlineHour : option R) (flex : bool) (cs : list job_call) :
  status (exec_calls (new_Job i nm p durationMin prio deadlineHour flex) cs) = WAITING <->
  startHour (exec_calls (new_Job i nm p durationMin prio deadlineHour flex) cs) = None.
Proof.
  assert (Hgen : forall j, (status j = WAITING <-> startHour j = None) ->
            (status (exec_calls j cs) = WAITING <-> startHour (exec_calls j cs) = None)).
  { induction cs as [| c rest IH]; intros j Hj; cbn; [exact Hj |].
    apply IH, exec_call_waiting_iff, Hj. }
  apply Hgen; cbn; split; reflexivity.
Qed.

(* ------------------------------------------------------------------ *)
(** ** What a scheduling call does to the scheduler's jobs *)

Lemma insert_by_perm cmp x l : Permutation (insert_by cmp x l) (x :: l).
Proof.
  induction l as [| y l IH]; cbn; [reflexivity |].
  destruct (Rlt_dec 0 (cmp y x)); [reflexivity |].
  eapply perm_trans; [apply perm_skip, IH | apply perm_swap].
Qed.

Lemma sort_by_perm cmp l : Permutation (sort_by cmp l) l.
Proof.
  unfold sort_by.
  assert (Hgen : forall acc, Permutation (fold_left (fun acc x => insert_by cmp x acc) l acc)
                                         (l ++ acc)).
  { induction l as [| x l IH]; intros acc; cbn; [reflexivity |].
    eapply perm_trans; [apply IH |].
    eapply perm_trans; [apply Permutation_app_head, insert_by_perm |].
    apply Permutation_sym, Permutation_middle. }
  rewrite <- (app_nil_r l) at 2; apply Hgen.
Qed.

Lemma smart_loop_nodup solar temp js total :
  NoDup (map id js) -> NoDup (map id (smart_loop solar temp js total)).
Proof.
  revert total; induction js as [| j rest IH]; intros total Hnd; cbn; [constructor |].
  inversion Hnd as [| ? ? Hnin Hnd']; subst.
  destruct (thermal_skip temp j); [apply IH; exact Hnd' |].
  destruct (solar_skip solar j); [apply IH; exact Hnd' |].
  destruct (Rle_dec (total + powerKw j) MAX_DATA_HUB_POWER); [| apply IH; exact Hnd'].
  cbn; constructor; [| apply IH; exact Hnd'].
  intros Hin; apply in_map_iff in Hin; destruct Hin as (a & Ha & Hin).
  apply smart_loop_admitted in Hin; destruct Hin as (Hin & _).
  apply Hnin; rewrite <- Ha; apply in_map; exact Hin.
Qed.

Lemma baseline_loop_in js total a : In a (baseline_loop js total) -> In a js.
Proof.
  revert total; induction js as [| j rest IH]; intros total Hin; cbn in Hin; [contradiction |].
  destruct (Rle_dec (total + powerKw j) MAX_DATA_HUB_POWER); [| contradiction].
  destruct Hin as [-> | Hin]; [left; reflexivity | right; eapply IH; exact Hin].
Qed.

Lemma baseline_loop_nodup js total :
  NoDup (map id js) -> NoDup (map id (baseline_loop js total)).
Proof.
  revert total; induction js as [| j rest IH]; intros total Hnd; cbn; [constructor |].
  inversion Hnd as [| ? ? Hnin Hnd']; subst.
  destruct (Rle_dec (total + powerKw j) MAX_DATA_HUB_POWER); [| constructor].
  cbn; constructor; [| apply IH; exact Hnd'].
  intros Hin; apply in_map_iff in Hin; destruct Hin as (a & Ha & Hin).
  apply baseline_loop_in in Hin.
  apply Hnin; rewrite <- Ha; apply in_map; exact Hin.
Qed.

Lemma filter_nodup_ids f (js : list Job) :
  NoDup (map id js) -> NoDup (map id (filter f js)).
Proof.
  induction js as [| j rest IH]; intros Hnd; cbn; [constructor |].
  inversion Hnd as [| ? ? Hnin Hnd']; subst.
  destruct (f j); cbn; [constructor; [| apply IH; exact Hnd'] | apply IH; exact Hnd'].
  intros Hin; apply in_map_iff in Hin; destruct Hin as (a & Ha & Hin).
  apply filter_In in Hin; destruct Hin as (Hin & _).
  apply Hnin; rewrite <- Ha; apply in_map; exact Hin.
Qed.

Lemma is_waiting_true j : is_waiting j = true <-> status j = WAITING.
Proof. unfold is_waiting; destruct (status j); split; congruence. Qed.

(** Both schedulers start and return the jobs of a list [A] of WAITING
    stored jobs, without repeated identities when the store has none. *)
Lemma schedule_shape useSmart solar temp hour jobs :
  exists A,
    fst (schedule useSmart solar temp hour jobs) = map (start hour) A /\
    snd (schedule useSmart solar temp hour jobs) = apply_starts (map id A) hour jobs /\
    (forall a, In a A -> In a jobs /\ status a = WAITING) /\
    (NoDup (map id jobs) -> NoDup (map id A)).
Proof.
  destruct useSmart; cbn.
  - unfold SmartScheduler_schedule, prioritizeJobs; cbv zeta.
    eexists; split; [reflexivity | split; [reflexivity | split]].
    + intros a Hin; apply smart_loop_admitted in Hin; destruct Hin as (Hin & _).
      apply sort_by_in, filter_In in Hin; destruct Hin as (Hin & Hw).
      split; [exact Hin | apply is_waiting_true; exact Hw].
    + intros Hnd; apply smart_loop_nodup.
      eapply Permutation_NoDup; [apply Permutation_map, Permutation_sym, sort_by_perm |].
      apply filter_nodup_ids; exact Hnd.
  - unfold BaselineScheduler_schedule; cbv zeta.
    eexists; split; [reflexivity | split; [reflexivity | split]].
    + intros a Hin; apply baseline_loop_in, filter_In in Hin; destruct Hin as (Hin & Hw).
      split; [exact Hin | apply is_waiting_true; exact Hw].
    + intros Hnd; apply baseline_loop_nodup, filter_nodup_ids; exact Hnd.
Qed.

Lemma start_waiting h j :
  status j = WAITING -> status (start h j) = RUNNING /\ startHour (start h j) <> None.
Proof.
  unfold start, set_status, set_startHour; intros ->; cbn.
  destruct (startHour j); cbn; split; congruence.
Qed.

Lemma map_id_start h A : map id (map (start h) A) = map id A.
Proof. rewrite map_map; apply map_ext; apply start_id. Qed.

Lemma existsb_eqb_true n ids : existsb (Nat.eqb n) ids = true <-> In n ids.
Proof.
  rewrite existsb_exists; split.
  - intros (x & Hx & He); apply Nat.eqb_eq in He; subst; exact Hx.
  - intros Hn; exists n; split; [exact Hn | apply Nat.eqb_refl].
Qed.

Lemma nodup_ids_same (jobs : list Job) n j a :
  NoDup (map id jobs) -> nth_error jobs n = Some j -> In a jobs -> id a = id j -> a = j.
Proof.
  intros Hnd Hn Ha Hid.
  destruct (In_nth_error jobs a Ha) as (m & Hm).
  assert (Hmn : m = n).
  { apply (proj1 (NoDup_nth_error (map id jobs)) Hnd).
    - rewrite length_map; apply nth_error_Some; congruence.
    - rewrite !nth_error_map, Hm, Hn; cbn; congruence. }
  subst m; congruence.
Qed.

(** X9: A call to either scheduler's [schedule] on jobs with distinct
    identities returns each job at most once, every returned job is RUNNING
    with a start hour, and each stored job is either started by the call
    (it was WAITING and is among the returned jobs) or left exactly as it
    was; the number of stored jobs does not change. *)
Theorem schedule_starts_exactly_returned (useSmart : bool) (solar temp hour : R)
    (jobs : list Job) :
  NoDup (map id jobs) ->
  NoDup (map id (fst (schedule useSmart solar temp hour jobs))) /\
  (forall r, In r (fst (schedule useSmart solar temp hour jobs)) ->
     status r = RUNNING /\ startHour r <> None) /\
  List.length (snd (schedule useSmart solar temp hour jobs)) = List.length jobs /\
  (forall n j, nth_error jobs n = Some j ->
     (status j = WAITING /\ In (id j) (map id (fst (schedule useSmart solar temp hour jobs))) /\
      nth_error (snd (schedule useSmart solar temp hour jobs)) n = Some (start hour j)) \/
     (~ In (id j) (map id (fst (schedule useSmart solar temp hour jobs))) /\
      nth_error (snd (schedule useSmart solar temp hour jobs)) n = Some j)).
Proof.
  intros Hnd.
  destruct (schedule_shape useSmart solar temp hour jobs) as (A & HA1 & HA2 & HA3 & HA4).
  rewrite HA1, HA2, map_id_start.
  split; [apply HA4, Hnd | split; [| split]].
  - intros r Hr; apply in_map_iff in Hr; destruct Hr as (a & <- & Ha).
    apply start_waiting, (HA3 a Ha).
  - unfold apply_starts; apply length_map.
  - intros n j Hn.
    unfold apply_starts; rewrite nth_error_map, Hn; cbn.
    destruct (existsb (Nat.eqb (id j)) (map id A)) eqn:He.
    + left; apply existsb_eqb_true in He.
      apply in_map_iff in He; destruct He as (a & Hid & Ha).
      destruct (HA3 a Ha) as (Hin & Hw).
      assert (a = j) by (eapply nodup_ids_same; eauto).
      subst a; split; [exact Hw | split; [apply in_map; exact Ha | reflexivity]].
    + right; split; [| reflexivity].
      intros Hin; apply existsb_eqb_true in Hin; congruence.
Qed.

Lemma schedule_starts_exactly_returned_witness :
  NoDup (map id [waiting_pump; running_heater]) /\
  NoDup (map id (fst (schedule true 5 20 3 [waiting_pump; running_heater]))).
Proof.
  split; [cbn; repeat constructor; cbn; intuition discriminate |].
  apply (schedule_starts_exactly_returned true 5 20 3 [waiting_pump; running_heater]).
  cbn; repeat constructor; cbn; intuition discriminate.
Defined.

(** X10: [prioritizeJobs] reorders the waiting jobs without losing or
    duplicating any: its result is a permutation of its input. *)
Theorem prioritizeJobs_permutation (jobs : list Job) (currentHour solarKw : R) :
  Permutation (prioritizeJobs jobs currentHour solarKw) jobs.
Proof. unfold prioritizeJobs; apply sort_by_perm. Qed.

(** X11: When the hub is hotter than 32 degrees, [SmartScheduler.schedule]
    returns (and so starts) no low-priority job. *)
Theorem smart_schedule_hot_skips_low (solarAvailableKw currentTemp currentHour : R)
    (jobs : list Job) :
  THERMAL_THRESHOLD < currentTemp ->
  forall r, In r (fst (SmartScheduler_schedule solarAvailableKw currentTemp currentHour jobs)) ->
  priority r <> low.
Proof.
  intros Hhot r Hr; unfold SmartScheduler_schedule in Hr; cbn in Hr.
  apply in_map_iff in Hr; destruct Hr as (a & <- & Ha).
  apply smart_loop_admitted in Ha; destruct Ha as (_ & Ht & _).
  rewrite start_priority; unfold thermal_skip in Ht.
  destruct (Rlt_dec THERMAL_THRESHOLD currentTemp); [| lra].
  destruct (priority a); congruence.
Qed.

Lemma smart_schedule_hot_skips_low_witness :
  THERMAL_THRESHOLD < 35 /\
  (forall r, In r (fst (SmartScheduler_schedule 5 35 3 [job_a; waiting_pump])) ->
   priority r <> low).
Proof.
  split; [unfold THERMAL_THRESHOLD; lra |].
  apply (smart_schedule_hot_skips_low 5 35 3 [job_a; waiting_pump]).
  unfold THERMAL_THRESHOLD; lra.
Defined.

Lemma sum_power_nonneg js : (forall j, In j js -> 0 <= powerKw j) -> 0 <= sum_power js.
Proof.
  induction js as [| j rest IH]; intros H; [cbn; lra |].
  change (sum_power (j :: rest)) with (powerKw j + sum_power rest).
  pose proof (H j (or_introl eq_refl)).
  pose proof (IH (fun x Hx => H x (or_intror Hx))); lra.
Qed.

Lemma sum_power_perm l1 l2 : Permutation l1 l2 -> sum_power l1 = sum_power l2.
Proof. induction 1; unfold sum_power in *; cbn in *; lra. Qed.

Lemma smart_loop_all solar temp js total :
  (forall j, In j js -> 0 <= powerKw j /\ thermal_skip temp j = false /\
                       solar_skip solar j = false) ->
  total + sum_power js <= MAX_DATA_HUB_POWER ->
  smart_loop solar temp js total = js.
Proof.
  revert total; induction js as [| j rest IH]; intros total H Hsum; cbn; [reflexivity |].
  destruct (H j (or_introl eq_refl)) as (Hp & Ht & Hs); rewrite Ht, Hs.
  assert (Hrest : 0 <= sum_power rest)
    by (apply sum_power_nonneg; intros x Hx; apply (H x (or_intror Hx))).
  change (sum_power (j :: rest)) with (powerKw j + sum_power rest) in Hsum.
  decide_R; f_equal.
  apply IH; [intros x Hx; apply (H x (or_intror Hx)) | lra].
Qed.

Lemma baseline_loop_all js total :
  (forall j, In j js -> 0 <= powerKw j) ->
  total + sum_power js <= MAX_DATA_HUB_POWER ->
  baseline_loop js total = js.
Proof.
  revert total; induction js as [| j rest IH]; intros total H Hsum; cbn; [reflexivity |].
  pose proof (H j (or_introl eq_refl)) as Hp.
  assert (Hrest : 0 <= sum_power rest)
    by (apply sum_power_nonneg; intros x Hx; apply (H x (or_intror Hx))).
  change (sum_power (j :: rest)) with (powerKw j + sum_power rest) in Hsum.
  decide_R; f_equal.
  apply IH; [intros x Hx; apply (H x (or_intror Hx)) | lra].
Qed.

(** X12: When the WAITING jobs have non-negative powers and all fit together,
    both schedulers start every one of them: the Smart Scheduler, if their
    total is at most 10 kW and no skip rule applies to them (the hub at
    most 32 degrees or the job not low-priority; solar at least 1 kW or
    the job not medium-priority or not flexible), returns them all in some
    order; the Baseline, if their total is at most 10 - 3 = 7 kW, returns
    them all in submission order. *)
Theorem schedulers_start_all_that_fit (solar temp hour : R) (jobs : list Job) :
  ((forall j, In j jobs -> status j = WAITING ->
      0 <= powerKw j /\ (temp <= THERMAL_THRESHOLD \/ priority j <> low) /\
      (1 <= solar \/ priority j <> medium \/ flexible j = false)) ->
   sum_power (filter is_waiting jobs) <= MAX_DATA_HUB_POWER ->
   Permutation (fst (SmartScheduler_schedule solar temp hour jobs))
               (map (start hour) (filter is_waiting jobs))) /\
  ((forall j, In j jobs -> status j = WAITING -> 0 <= powerKw j) ->
   BASELINE_BACKGROUND_LOAD + sum_power (filter is_waiting jobs) <= MAX_DATA_HUB_POWER ->
   fst (BaselineScheduler_schedule solar temp hour jobs) =
   map (start hour) (filter is_waiting jobs)).
Proof.
  split.
  - intros H Hsum; unfold SmartScheduler_schedule, prioritizeJobs; cbn.
    rewrite smart_loop_all.
    + apply Permutation_map, sort_by_perm.
    + intros j Hj; apply sort_by_in, filter_In in Hj; destruct Hj as (Hj & Hw).
      apply is_waiting_true in Hw.
      destruct (H j Hj Hw) as (Hp & Ht & Hs); split; [exact Hp | split].
      * unfold thermal_skip; destruct (Rlt_dec THERMAL_THRESHOLD temp); [| reflexivity].
        destruct Ht as [Ht | Ht]; [lra | destruct (priority j); congruence].
      * unfold solar_skip; destruct (priority j); try reflexivity.
        destruct (Rlt_dec solar 1.0); [| reflexivity].
        destruct Hs as [Hs | [Hs | Hs]]; [lra | congruence | exact Hs].
    + rewrite (sum_power_perm _ _ (sort_by_perm _ _)); lra.
  - intros H Hsum; unfold BaselineScheduler_schedule; cbn.
    rewrite baseline_loop_all; [reflexivity | | exact Hsum].
    intros j Hj; apply filter_In in Hj; destruct Hj as (Hj & Hw).
    apply H; [exact Hj | apply is_waiting_true; exact Hw].
Qed.

Lemma schedulers_start_all_that_fit_witness :
  Permutation (fst (SmartScheduler_schedule 5 20 3 [job_a; waiting_pump]))
              (map (start 3) (filter is_waiting [job_a; waiting_pump])) /\
  fst (BaselineScheduler_schedule 5 20 3 [job_a; waiting_pump]) =
  map (start 3) (filter is_waiting [job_a; waiting_pump]).
Proof.
  split.
  - apply (proj1 (schedulers_start_all_that_fit 5 20 3 [job_a; waiting_pump])).
    + intros j [<- | [<- | []]] _; cbn; unfold THERMAL_THRESHOLD;
        (split; [lra | split; [left; lra | left; lra]]).
    + cbn; unfold MAX_DATA_HUB_POWER; lra.
  - apply (proj2 (schedulers_start_all_that_fit 5 20 3 [job_a; waiting_pump])).
    + intros j [<- | [<- | []]] _; cbn; lra.
    + cbn; unfold MAX_DATA_HUB_POWER, BASELINE_BACKGROUND_LOAD; lra.
Defined.

(* ------------------------------------------------------------------ *)
(** ** The data lookup of the simulation *)

Lemma hour_map_get_skip (post : list StandardizedPoint) h acc :
  (forall p, In p post -> timestamp p <> Some h) ->
  fold_left (fun acc p =>
      match timestamp p with
      | Some t => if Req_EM_T t h then Some (value p) else acc
      | None => acc
      end) post acc = acc.
Proof.
  revert acc; induction post as [| p rest IH]; intros acc Hpost; cbn; [reflexivity |].
  rewrite IH by (intros q Hq; apply Hpost; right; exact Hq).
  destruct (timestamp p) as [t |] eqn:Ht; [| reflexivity].
  destruct (Req_EM_T t h) as [-> | _]; [| reflexivity].
  exfalso; apply (Hpost p (or_introl eq_refl)); exact Ht.
Qed.

Lemma createLookup_cons q l h :
  createLookup (Some (q :: l)) h =
  match hour_map_get (q :: l) h with
  | Some v => Some v
  | None => if Z.leb 0 (js_floor h) then option_map value (nth_error (q :: l) (Z.to_nat (js_floor h)))
            else None
  end.
Proof. reflexivity. Qed.

(** X13: [createLookup(data)] returns, for an hour that appears as a timestamp,
    the value of the last point with that timestamp: later points overwrite
    earlier ones in the map. *)
Theorem createLookup_latest_timestamp (pre post : list StandardizedPoint) (t v : R) :
  (forall p, In p post -> timestamp p <> Some t) ->
  createLookup (Some (pre ++ mkPoint (Some t) v :: post)) t = Some v.
Proof.
  intros Hpost.
  assert (Hget : hour_map_get (pre ++ mkPoint (Some t) v :: post) t = Some v).
  { unfold hour_map_get; rewrite fold_left_app; cbn.
    destruct (Req_EM_T t t) as [_ | Hne]; [| congruence].
    apply hour_map_get_skip; exact Hpost. }
  destruct (pre ++ mkPoint (Some t) v :: post) as [| q l] eqn:E;
    [destruct pre; discriminate |].
  rewrite createLookup_cons, Hget; reflexivity.
Qed.

Lemma createLookup_latest_timestamp_witness :
  createLookup (Some ([mkPoint (Some 3%R) 1; mkPoint None 9] ++
                      mkPoint (Some 3%R) 2 :: [mkPoint (Some 4%R) 5])) 3 = Some 2%R.
Proof.
  apply createLookup_latest_timestamp.
  intros p [<- | []]; cbn; intros E; injection E; lra.
Defined.

(** X14: For an hour that is no point's timestamp, [createLookup(data)] falls
    back to the point at index [Math.floor(hour)]; a negative hour, or one
    at or past the number of points, gives null (so the simulation uses the
    physics model there). *)
Theorem createLookup_index_fallback (pts : list StandardizedPoint) (h : R) :
  (forall p, In p pts -> timestamp p <> Some h) ->
  (forall p, 0 <= h -> nth_error pts (Z.to_nat (js_floor h)) = Some p ->
   createLookup (Some pts) h = Some (value p)) /\
  (h < 0 \/ INR (List.length pts) <= h -> createLookup (Some pts) h = None).
Proof.
  intros Hnone.
  assert (Hget : hour_map_get pts h = None)
    by (unfold hour_map_get; apply hour_map_get_skip; exact Hnone).
  destruct (base_Int_part h) as [Hfl1 Hfl2].
  split.
  - intros p Hh Hp.
    destruct pts as [| q l]; [destruct (Z.to_nat (js_floor h)); discriminate |].
    rewrite createLookup_cons, Hget.
    assert (Hleb : Z.leb 0 (js_floor h) = true).
    { apply Z.leb_le; unfold js_floor.
      assert (-1 < Int_part h)%Z by (apply lt_IZR; lra). lia. }
    rewrite Hleb, Hp; reflexivity.
  - intros Hout.
    destruct pts as [| q l]; [reflexivity |].
    rewrite createLookup_cons, Hget.
    destruct (Z.leb 0 (js_floor h)) eqn:Hleb; [| reflexivity].
    apply Z.leb_le in Hleb; unfold js_floor in *.
    destruct Hout as [Hneg | Hbig].
    + assert (Int_part h < 0)%Z by (apply lt_IZR; lra). lia.
    + rewrite INR_IZR_INZ in Hbig.
      assert (Z.of_nat (List.length (q :: l)) - 1 < Int_part h)%Z
        by (apply lt_IZR; rewrite minus_IZR; lra).
      assert (Hlen : (List.length (q :: l) <= Z.to_nat (Int_part h))%nat) by lia.
      apply nth_error_None in Hlen; rewrite Hlen; reflexivity.
Qed.

Lemma createLookup_index_fallback_witness :
  createLookup (Some [mkPoint None 7; mkPoint None 8]) 1.5 = Some 8%R /\
  createLookup (Some [mkPoint None 7; mkPoint None 8]) 2 = None.
Proof.
  assert (Hts : forall h, forall p, In p [mkPoint None 7; mkPoint None 8] -> timestamp p <> Some h)
    by (intros h p [<- | [<- | []]]; cbn; discriminate).
  assert (Hfl : js_floor 1.5 = 1%Z).
  { unfold js_floor; symmetry; apply Int_part_spec; lra. }
  split.
  - apply (proj1 (createLookup_index_fallback _ 1.5 (Hts 1.5)) (mkPoint None 8)); [lra |].
    rewrite Hfl; reflexivity.
  - apply (proj2 (createLookup_index_fallback _ 2 (Hts 2))).
    right; cbn; lra.
Defined.

(* ------------------------------------------------------------------ *)
(** ** Invariants of the simulation loop *)

(** One iteration of the loop, field by field. *)
Lemma sim_step_eqs useSmart gs gt config st :
  let h := st_hour st in
  let sa := solar_available gs config h in
  let adv := advance_running h (st_running st) (st_jobs st) in
  let sch := schedule useSmart sa (st_temp st) h (fst adv) in
  let running2 := add_new_jobs (fst sch) (snd sch) (snd adv) in
  let load := compute_load running2 (snd sch) in
  let solarUsed := Rmin load sa in
  let gridUse := Rmax 0 (load - solarUsed) + getCoolingPowerKw (st_temp st) load in
  let dt := TIME_STEP_MINUTES / 60.0 in
  let st' := sim_step useSmart gs gt config st in
  st_jobs st' = snd (check_deadlines h (snd sch)) /\
  st_sla st' = (st_sla st + fst (check_deadlines h (snd sch)))%nat /\
  st_running st' = running2 /\
  st_hour st' = h + dt /\
  st_solar st' = st_solar st + solarUsed * dt /\
  st_grid st' = st_grid st + gridUse * dt /\
  st_cooling st' = st_cooling st + getCoolingPowerKw (st_temp st) load * dt /\
  st_carbon st' = st_carbon st + gridUse * dt * GRID_CARBON_INTENSITY /\
  st_cost st' = st_cost st + gridUse * dt * getGridPrice h /\
  log_time st' = log_time st ++ [h] /\
  log_solar st' = log_solar st ++ [solarUsed] /\
  log_grid st' = log_grid st ++ [gridUse] /\
  (exists t, log_temp st' = log_temp st ++ [t]) /\
  log_cooling st' = log_cooling st ++ [getCoolingPowerKw (st_temp st) load] /\
  log_cost st' = log_cost st ++ [st_cost st'].
Proof.
  cbv zeta; unfold sim_step; cbv zeta.
  destruct (advance_running (st_hour st) (st_running st) (st_jobs st)) as [jobs1 running1].
  cbn [fst snd].
  destruct (schedule useSmart (solar_available gs config (st_hour st)) (st_temp st)
              (st_hour st) jobs1) as [newJobs jobs2].
  cbn [fst snd].
  destruct (check_deadlines (st_hour st) jobs2) as [missed jobs3].
  repeat split; eexists; reflexivity.
Qed.

Lemma sim_loop_invariant (P : SimState -> Prop) useSmart gs gt config :
  (forall st, P st -> st_hour st < SIMULATION_END_HOUR -> P (sim_step useSmart gs gt config st)) ->
  forall fuel st, P st -> P (sim_loop fuel useSmart gs gt config st).
Proof.
  intros Hstep fuel; induction fuel as [| f IH]; intros st Hst; cbn; [exact Hst |].
  destruct (Rlt_dec (st_hour st) SIMULATION_END_HOUR); [| exact Hst].
  apply IH, Hstep; assumption.
Qed.

Ltac step_eqs useSmart gs gt config st :=
  let E := fresh "E" in
  pose proof (sim_step_eqs useSmart gs gt config st) as E; cbv zeta in E;
  destruct E as (Ej & Esla & Erun & Eh & Es & Eg & Ec & Eca & Eco & Elt & Els & Elg &
                 (t & Eltemp) & Elc & Elco).

Lemma getCoolingPowerKw_nonneg T L : 0 <= getCoolingPowerKw T L.
Proof.
  unfold getCoolingPowerKw; cbv zeta; decide_R; apply Rmax_l.
Qed.

Lemma getGridPrice_pos h : 0 < getGridPrice h.
Proof. unfold getGridPrice; decide_R. Qed.

Lemma dt_pos : 0 < TIME_STEP_MINUTES / 60.0.
Proof. unfold TIME_STEP_MINUTES; lra. Qed.

(** The accumulated energies, cost and carbon of one iteration. *)
Lemma sim_step_energy useSmart gs gt config st :
  0 <= st_cooling st <= st_grid st -> 0 <= st_cost st -> 0 <= st_carbon st ->
  0 <= st_cooling (sim_step useSmart gs gt config st) <= st_grid (sim_step useSmart gs gt config st) /\
  st_cost st <= st_cost (sim_step useSmart gs gt config st) /\
  0 <= st_carbon (sim_step useSmart gs gt config st) /\
  0 <= st_grid (sim_step useSmart gs gt config st) - st_grid st.
Proof.
  intros Hc Hco Hca.
  step_eqs useSmart gs gt config st.
  rewrite Ec, Eg, Eco, Eca.
  match goal with |- context [getCoolingPowerKw ?a ?b] =>
    pose proof (getCoolingPowerKw_nonneg a b); set (c := getCoolingPowerKw a b) in * end.
  match goal with |- context [Rmax 0 ?x] =>
    pose proof (Rmax_l 0 x); set (g := Rmax 0 x) in * end.
  pose proof (getGridPrice_pos (st_hour st)).
  pose proof dt_pos.
  set (dt := TIME_STEP_MINUTES / 60.0) in *.
  assert (0 <= (g + c) * dt) by (apply Rmult_le_pos; lra).
  assert (0 <= (g + c) * dt * getGridPrice (st_hour st)) by (apply Rmult_le_pos; lra).
  assert (0 <= c * dt) by (apply Rmult_le_pos; lra).
  assert (c * dt <= (g + c) * dt) by (apply Rmult_le_compat_r; lra).
  unfold GRID_CARBON_INTENSITY.
  repeat split; lra.
Qed.

Lemma nondecreasing_snoc l x :
  nondecreasing l -> last l 0 <= x -> nondecreasing (l ++ [x]).
Proof.
  induction l as [| a l IH]; intros Hn Hl; cbn; [exact I |].
  destruct l as [| b l]; cbn in *; [split; [exact Hl | exact I] |].
  destruct Hn as [Hab Hn]; split; [exact Hab |].
  apply IH; [exact Hn | exact Hl].
Qed.

Lemma last_snoc (l : list R) x : last (l ++ [x]) 0 = x.
Proof.
  induction l as [| a l IH]; cbn; [reflexivity |].
  destruct (l ++ [x]) eqn:E; [destruct l; discriminate | exact IH].
Qed.

Lemma count_penalized_map (f : Job -> Job) js :
  (forall j, penalized (f j) = penalized j) -> count_penalized (map f js) = count_penalized js.
Proof.
  intros Hf; unfold count_penalized; induction js as [| j js IH]; cbn; [reflexivity |].
  rewrite Hf; destruct (penalized j); cbn; rewrite ?IH; reflexivity.
Qed.

Lemma deadlineMissed_count h j :
  ((if penalized (snd (deadlineMissed h j)) then 1 else 0) =
   (if penalized j then 1 else 0) + (if fst (deadlineMissed h j) then 1 else 0))%nat.
Proof.
  unfold deadlineMissed, set_penalized; destruct (deadline j); cbn;
    [| destruct (penalized j); reflexivity].
  decide_R; cbn; [| destruct (penalized j); reflexivity].
  destruct (status j); cbn; destruct (penalized j) eqn:E; cbn; rewrite ?E; reflexivity.
Qed.

Lemma check_deadlines_count h js :
  count_penalized (snd (check_deadlines h js)) =
  (count_penalized js + fst (check_deadlines h js))%nat.
Proof.
  unfold count_penalized; induction js as [| j rest IH]; cbn; [reflexivity |].
  pose proof (deadlineMissed_count h j) as Hc.
  destruct (deadlineMissed h j) as [b j']; destruct (check_deadlines h rest) as [k rest'].
  cbn in *.
  destruct (penalized j'), (penalized j), b; cbn in *; lia.
Qed.

Lemma count_penalized_le js : (count_penalized js <= List.length js)%nat.
Proof.
  unfold count_penalized; induction js as [| j js IH]; cbn; [lia |].
  destruct (penalized j); cbn; lia.
Qed.

Lemma advance_running_fst h r js :
  fst (advance_running h r js) =
  map (fun j => if mem_id (id j) r then runStep TIME_STEP_MINUTES h j else j) js.
Proof. reflexivity. Qed.

(** The jobs after one iteration: [runStep] on some, [start] on some, then
    [deadlineMissed] on all. *)
Lemma sim_step_jobs_shape useSmart gs gt config st :
  exists ids,
    st_jobs (sim_step useSmart gs gt config st) =
    map (fun j => snd (deadlineMissed (st_hour st) j))
      (apply_starts ids (st_hour st)
         (map (fun j => if mem_id (id j) (st_running st)
                        then runStep TIME_STEP_MINUTES (st_hour st) j else j)
            (st_jobs st))).
Proof.
  step_eqs useSmart gs gt config st.
  rewrite Ej, check_deadlines_map.
  match goal with |- context [schedule ?u ?s ?t ?h ?js] =>
    destruct (schedule_shape u s t h js) as (A & _ & HA & _) end.
  rewrite HA, advance_running_fst; exists (map id A); reflexivity.
Qed.

Lemma Forall2_map_r {A : Type} (Rel : A -> Job -> Prop) (f : Job -> Job) l1 l2 :
  (forall a j, Rel a j -> Rel a (f j)) -> Forall2 Rel l1 l2 -> Forall2 Rel l1 (map f l2).
Proof.
  intros Hf H; induction H; cbn; constructor; auto.
Qed.

(** A relation between a fixed job list and the scheduler's jobs that each
    job method keeps survives an iteration. *)
Lemma sim_step_jobs_forall2 {A : Type} (Rel : A -> Job -> Prop) l useSmart gs gt config st :
  (forall a j, Rel a j -> Rel a (runStep TIME_STEP_MINUTES (st_hour st) j)) ->
  (forall a j, Rel a j -> Rel a (start (st_hour st) j)) ->
  (forall a j, Rel a j -> Rel a (snd (deadlineMissed (st_hour st) j))) ->
  Forall2 Rel l (st_jobs st) ->
  Forall2 Rel l (st_jobs (sim_step useSmart gs gt config st)).
Proof.
  intros H1 H2 H3 H.
  destruct (sim_step_jobs_shape useSmart gs gt config st) as (ids & ->).
  apply Forall2_map_r; [exact H3 |].
  unfold apply_starts; apply Forall2_map_r.
  { intros a j Hj; destruct (existsb _ _); auto. }
  apply Forall2_map_r; [| exact H].
  intros a j Hj; destruct (mem_id _ _); auto.
Qed.

Lemma Forall_Forall2_self (P : Job -> Prop) l :
  Forall P l <-> Forall2 (fun _ j => P j) l l.
Proof.
  split; intros H; induction l as [| x l IH]; auto; inversion H; subst; constructor; auto.
Qed.

Lemma sim_step_jobs_forall (Q : Job -> Prop) useSmart gs gt config st :
  (forall j, Q j -> Q (runStep TIME_STEP_MINUTES (st_hour st) j)) ->
  (forall j, Q j -> Q (start (st_hour st) j)) ->
  (forall j, Q j -> Q (snd (deadlineMissed (st_hour st) j))) ->
  Forall Q (st_jobs st) -> Forall Q (st_jobs (sim_step useSmart gs gt config st)).
Proof.
  intros H1 H2 H3 H.
  apply Forall_Forall2_self in H.
  pose proof (sim_step_jobs_forall2 (fun _ j => Q j) (st_jobs st) useSmart gs gt config st
                (fun _ => H1) (fun _ => H2) (fun _ => H3) H) as H'.
  clear - H'; revert H'; generalize (st_jobs st) as l1.
  generalize (st_jobs (sim_step useSmart gs gt config st)) as l2.
  intros l2 l1 H; induction H; auto.
Qed.

Lemma static_eq_trans a b c : static_eq a b -> static_eq b c -> static_eq a c.
Proof. unfold static_eq; intros; repeat split; intuition congruence. Qed.



Lemma startHour_start h j : startHour (start h j) = startHour j \/ startHour (start h j) = Some h.
Proof.
  unfold start.
  destruct (status j); jsimpl; [destruct (startHour j) eqn:Ho; jsimpl; rewrite ?Ho |..]; auto.
Qed.

Lemma startHour_runStep dt h j :
  startHour (runStep dt h j) = startHour j \/ startHour (runStep dt h j) = Some h.
Proof. job_cases_run j; auto. Qed.

Lemma start_consistent_step j j' h :
  SIMULATION_START_HOUR <= h < SIMULATION_END_HOUR -> start_consistent j ->
  (status j' = WAITING <-> startHour j' = None) ->
  (startHour j' = startHour j \/ startHour j' = Some h) -> start_consistent j'.
Proof.
  intros Hh [_ Hr] Hiff Hs; split; [exact Hiff |].
  intros s Es; destruct Hs as [Hs | Hs]; rewrite Hs in Es; [exact (Hr s Es) |].
  injection Es as <-; exact Hh.
Qed.

Lemma start_consistent_start h j :
  SIMULATION_START_HOUR <= h < SIMULATION_END_HOUR -> start_consistent j ->
  start_consistent (start h j).
Proof.
  intros Hh Hj; apply (start_consistent_step j _ h Hh Hj).
  - exact (exec_call_waiting_iff j (CallStart h) (proj1 Hj)).
  - apply startHour_start.
Qed.

Lemma start_consistent_runStep dt h j :
  SIMULATION_START_HOUR <= h < SIMULATION_END_HOUR -> start_consistent j ->
  start_consistent (runStep dt h j).
Proof.
  intros Hh Hj; apply (start_consistent_step j _ h Hh Hj).
  - exact (exec_call_waiting_iff j (CallRunStep dt h) (proj1 Hj)).
  - apply startHour_runStep.
Qed.

Lemma start_consistent_deadline h j :
  SIMULATION_START_HOUR <= h < SIMULATION_END_HOUR -> start_consistent j ->
  start_consistent (snd (deadlineMissed h j)).
Proof.
  intros Hh Hj; apply (start_consistent_step j _ h Hh Hj).
  - rewrite <- exec_call_deadline; exact (exec_call_waiting_iff j _ (proj1 Hj)).
  - left; apply deadlineMissed_fields.
Qed.

Lemma Forall2_nth_error_l {A B : Type} (Rel : A -> B -> Prop) l1 l2 n a :
  Forall2 Rel l1 l2 -> nth_error l1 n = Some a -> exists b, nth_error l2 n = Some b /\ Rel a b.
Proof.
  intros H; revert n; induction H as [| x y l1 l2 Hxy H IH]; intros n Hn.
  - destruct n; discriminate.
  - destruct n as [| n]; cbn in *; [injection Hn as <-; eauto | eauto].
Qed.

Lemma Forall2_static_refl l : Forall2 static_eq l l.
Proof.
  induction l; constructor; [unfold static_eq; repeat split | assumption].
Qed.

Lemma build_jobs_from_length i apps : List.length (build_jobs_from i apps) = List.length apps.
Proof. revert i; induction apps; intros i; cbn; auto. Qed.

Lemma build_jobs_from_unpenalized i apps : count_penalized (build_jobs_from i apps) = 0%nat.
Proof.
  revert i; induction apps as [| a apps IH]; intros i; [reflexivity |].
  unfold count_penalized in *; cbn; apply IH.
Qed.

Lemma build_jobs_from_consistent i apps : Forall start_consistent (build_jobs_from i apps).
Proof.
  revert i; induction apps as [| a apps IH]; intros i; cbn; constructor; auto.
  unfold start_consistent; cbn; split; [split; reflexivity | discriminate].
Qed.

Lemma build_jobs_from_power i apps :
  (forall app, In app apps -> 0 <= app_power app) ->
  Forall (fun j => 0 <= powerKw j) (build_jobs_from i apps).
Proof.
  revert i; induction apps as [| a apps IH]; intros i Hp; cbn; constructor.
  - apply Hp; left; reflexivity.
  - apply IH; intros app Hin; apply Hp; right; exact Hin.
Qed.

Lemma compute_load_nonneg running jobs :
  Forall (fun j => 0 <= powerKw j) jobs -> 0 <= compute_load running jobs.
Proof.
  intros Hj; unfold compute_load.
  assert (G : forall acc, 0 <= acc ->
            0 <= fold_left (fun sum i => match find_job i jobs with
                                         | Some j => sum + powerKw j | None => sum end)
                   running acc).
  { induction running as [| i rest IH]; intros acc Hacc; cbn; [exact Hacc |].
    apply IH; destruct (find_job i jobs) as [j |] eqn:Hf; [| exact Hacc].
    apply find_some in Hf; destruct Hf as [Hin _].
    rewrite Forall_forall in Hj; specialize (Hj j Hin); lra. }
  apply G; lra.
Qed.

Lemma hour_map_get_in pts h v acc :
  fold_left (fun acc p =>
      match timestamp p with
      | Some t => if Req_EM_T t h then Some (value p) else acc
      | None => acc
      end) pts acc = Some v ->
  acc = Some v \/ exists p, In p pts /\ value p = v.
Proof.
  revert acc; induction pts as [| p rest IH]; intros acc H; cbn in H; [left; exact H |].
  destruct (IH _ H) as [Ha | (q & Hq & Hv)]; [| right; exists q; split; [right |]; assumption].
  destruct (timestamp p); [destruct (Req_EM_T r h) |]; try (left; exact Ha).
  right; exists p; split; [left; reflexivity | congruence].
Qed.

Lemma createLookup_some_in data h v :
  createLookup data h = Some v -> exists pts p, data = Some pts /\ In p pts /\ value p = v.
Proof.
  unfold createLookup; destruct data as [[| q l] |]; try discriminate.
  set (pts := q :: l).
  destruct (hour_map_get pts h) as [w |] eqn:Hm.
  - intros [= <-]; unfold hour_map_get in Hm.
    destruct (hour_map_get_in pts h w None Hm) as [Hn | (p & Hp & Hv)]; [discriminate |].
    exists pts, p; auto.
  - destruct (Z.leb 0 (js_floor h)); [| discriminate].
    destruct (nth_error pts (Z.to_nat (js_floor h))) as [p |] eqn:Hn; cbn; [| discriminate].
    intros [= <-]; exists pts, p; split; [reflexivity | split; [| reflexivity]].
    eapply nth_error_In; exact Hn.
Qed.

Lemma getSolarPower_nonneg h maxPowerKw latitude dayOfYear :
  0 <= with_default MAX_SOLAR_KW maxPowerKw ->
  0 <= getSolarPower h maxPowerKw latitude dayOfYear.
Proof.
  intros Hm; unfold getSolarPower, SOLAR_EFFICIENCY; cbv zeta.
  match goal with |- context [calculateIrradiance ?a ?b ?c ?d] =>
    pose proof (calculateIrradiance_nonneg a b c d) end.
  apply Rmult_le_pos; [apply Rmult_le_pos |]; [exact Hm | unfold Rdiv; apply Rmult_le_pos | ];
    lra.
Qed.

Lemma schedule_after_advance_power useSmart sa temp h r js :
  Forall (fun j => 0 <= powerKw j) js ->
  Forall (fun j => 0 <= powerKw j)
    (snd (schedule useSmart sa temp h (fst (advance_running h r js)))).
Proof.
  intros Hjs.
  destruct (schedule_shape useSmart sa temp h (fst (advance_running h r js))) as (A & _ & -> & _).
  assert (H1 : Forall (fun j => 0 <= powerKw j) (fst (advance_running h r js))).
  { rewrite advance_running_fst, Forall_map.
    eapply Forall_impl; [| exact Hjs]; intros j Hj; cbv beta.
    destruct (mem_id _ _); [| exact Hj].
    destruct (static_runStep TIME_STEP_MINUTES h j) as (_ & _ & Ep & _); lra. }
  unfold apply_starts; rewrite Forall_map.
  eapply Forall_impl; [| exact H1]; intros j Hj; cbv beta.
  destruct (existsb _ _); [| exact Hj].
  destruct (static_start h j) as (_ & _ & Ep & _); lra.
Qed.

(** The energy invariant of the loop. *)
Lemma sim_loop_energy fuel useSmart gs gt config st :
  0 <= st_cooling st <= st_grid st -> 0 <= st_cost st -> 0 <= st_carbon st ->
  let st' := sim_loop fuel useSmart gs gt config st in
  0 <= st_cooling st' <= st_grid st' /\ 0 <= st_cost st' /\ 0 <= st_carbon st'.
Proof.
  intros H1 H2 H3; cbv zeta.
  apply (sim_loop_invariant
           (fun st => 0 <= st_cooling st <= st_grid st /\ 0 <= st_cost st /\ 0 <= st_carbon st));
    [| auto].
  intros s (G1 & G2 & G3) _.
  destruct (sim_step_energy useSmart gs gt config s G1 G2 G3) as (K1 & K2 & K3 & _).
  repeat split; lra.
Qed.

(** X15: Whatever the appliances, files and configuration, the reported grid
    energy (net of cooling), cooling energy, total cost and carbon of a run
    are all non-negative. *)
Theorem runSmartSimulation_energy_nonneg (appliances : list Appliance) (files : Files)
    (config : SimulationConfig) (useSmart : bool) :
  let m := runSmartSimulation appliances files config useSmart in
  0 <= energy_grid m /\ 0 <= energy_cooling m /\ 0 <= cost_total m /\ 0 <= carbon m.
Proof.
  cbv zeta; unfold runSmartSimulation; cbv zeta;
    cbn [energy_grid energy_cooling cost_total carbon].
  match goal with |- context [sim_loop ?f ?u ?gs ?gt ?c ?s0] =>
    destruct (sim_loop_energy f u gs gt c s0) as (H1 & H2 & H3) end;
    [unfold initial_state; cbn [st_cooling st_grid st_cost st_carbon]; lra .. |].
  repeat split; lra.
Qed.

(** X16: The six logs of a run have one entry per iteration each, the
    cumulative cost log never decreases, and its last entry is the reported
    total cost (0 when the log is empty). *)
Theorem runSmartSimulation_logs (appliances : list Appliance) (files : Files)
    (config : SimulationConfig) (useSmart : bool) :
  let m := runSmartSimulation appliances files config useSmart in
  let lg := metrics_logs m in
  List.length (log_solar lg) = List.length (log_time lg) /\
  List.length (log_grid lg) = List.length (log_time lg) /\
  List.length (log_temp lg) = List.length (log_time lg) /\
  List.length (log_cooling lg) = List.length (log_time lg) /\
  List.length (log_cost lg) = List.length (log_time lg) /\
  nondecreasing (log_cost lg) /\
  cost_total m = last (log_cost lg) 0.
Proof.
  cbv zeta; unfold runSmartSimulation; cbv zeta; cbn [metrics_logs cost_total].
  match goal with |- context [sim_loop ?f ?u ?gs ?gt ?c ?s0] =>
    assert (H : (fun st =>
      (0 <= st_cooling st <= st_grid st /\ 0 <= st_cost st /\ 0 <= st_carbon st) /\
      List.length (log_solar st) = List.length (log_time st) /\
      List.length (log_grid st) = List.length (log_time st) /\
      List.length (log_temp st) = List.length (log_time st) /\
      List.length (log_cooling st) = List.length (log_time st) /\
      List.length (log_cost st) = List.length (log_time st) /\
      nondecreasing (log_cost st) /\
      st_cost st = last (log_cost st) 0) (sim_loop f u gs gt c s0));
    [apply sim_loop_invariant | cbv beta in H; tauto] end.
  - intros s ((G1 & G2 & G3) & L1 & L2 & L3 & L4 & L5 & N & Lc) _.
    destruct (sim_step_energy useSmart (createLookup (files_solar files))
                (createLookup (files_weather files)) config s G1 G2 G3) as (K1 & K2 & K3 & _).
    step_eqs useSmart (createLookup (files_solar files))
      (createLookup (files_weather files)) config s.
    rewrite Elt, Els, Elg, Eltemp, Elc, Elco, !length_app; cbn [List.length].
    split; [repeat split; lra |].
    repeat split; try lia.
    + apply nondecreasing_snoc; [exact N | lra].
    + rewrite last_snoc; reflexivity.
  - unfold initial_state;
      cbn [st_cooling st_grid st_cost st_carbon log_solar log_grid log_temp log_cooling
           log_cost log_time List.length nondecreasing last].
    repeat split; lra.
Qed.

(** X17: The number of SLA violations a run reports is the number of its jobs
    flagged as penalized at the end, so no job is counted twice and there are
    never more violations than appliances. *)
Theorem runSmartSimulation_sla_bound (appliances : list Appliance) (files : Files)
    (config : SimulationConfig) (useSmart : bool) :
  let m := runSmartSimulation appliances files config useSmart in
  sla_violations m = count_penalized (st_jobs (metrics_logs m)) /\
  (sla_violations m <= List.length appliances)%nat.
Proof.
  cbv zeta; unfold runSmartSimulation; cbv zeta; cbn [metrics_logs sla_violations].
  match goal with |- context [sim_loop ?f ?u ?gs ?gt ?c ?s0] =>
    assert (H : (fun st => st_sla st = count_penalized (st_jobs st) /\
                           List.length (st_jobs st) = List.length appliances)
                  (sim_loop f u gs gt c s0));
    [apply sim_loop_invariant | cbv beta in H] end.
  - intros s (G1 & G2) _.
    step_eqs useSmart (createLookup (files_solar files))
      (createLookup (files_weather files)) config s.
    rewrite Ej, Esla, check_deadlines_count, check_deadlines_map, length_map.
    match goal with |- context [schedule ?u ?sa ?t ?h ?js] =>
      destruct (schedule_shape u sa t h js) as (A & _ & -> & _) end.
    unfold apply_starts; rewrite advance_running_fst, !length_map.
    rewrite count_penalized_map, count_penalized_map.
    + split; [rewrite G1; lia | exact G2].
    + intros j; destruct (mem_id _ _); [apply runStep_penalized | reflexivity].
    + intros j; destruct (existsb _ _); [apply start_penalized | reflexivity].
  - unfold initial_state, build_jobs; cbn [st_sla st_jobs].
    rewrite build_jobs_from_unpenalized, build_jobs_from_length; split; reflexivity.
  - destruct H as (H1 & H2); split; [exact H1 |].
    rewrite H1, <- H2; apply count_penalized_le.
Qed.

(** X18: The timeline of a run has one entry per appliance, in the order of
    the appliances, with the appliance's name, its normalized priority and
    its duration in hours (2 when the duration is missing or 0). *)
Theorem runSmartSimulation_timeline_fields (appliances : list Appliance) (files : Files)
    (config : SimulationConfig) (useSmart : bool) :
  let tl := timeline (runSmartSimulation appliances files config useSmart) in
  List.length tl = List.length appliances /\
  forall n app, nth_error appliances n = Some app ->
    exists e, nth_error tl n = Some e /\
      te_name e = app_name app /\
      te_priority e = normalizePriority (app_priority app) /\
      (forall d, app_duration app = Some d -> d <> 0 -> te_duration e = d) /\
      (app_duration app = None \/ app_duration app = Some 0 -> te_duration e = 2).
Proof.
  cbv zeta; unfold runSmartSimulation; cbv zeta; cbn [timeline].
  match goal with |- context [sim_loop ?f ?u ?gs ?gt ?c ?s0] =>
    assert (H : (fun st => Forall2 static_eq (build_jobs appliances) (st_jobs st))
                  (sim_loop f u gs gt c s0));
    [apply sim_loop_invariant | cbv beta in H] end.
  - intros s G _; apply sim_step_jobs_forall2; [| | | exact G]; intros a j Ha;
      eapply static_eq_trans; [exact Ha | | exact Ha | | exact Ha |];
      [apply static_runStep | apply static_start | apply static_deadline].
  - apply Forall2_static_refl.
  - split.
    + rewrite length_map, <- (Forall2_length H); unfold build_jobs;
        apply build_jobs_from_length.
    + intros n app Happ.
      assert (Hb : nth_error (build_jobs appliances) n = Some (job_of_appliance n app))
        by (unfold build_jobs; rewrite build_jobs_from_nth, Happ; reflexivity).
      destruct (Forall2_nth_error_l _ _ _ _ _ H Hb) as (j & Hj & (E1 & E2 & E3 & E4 & E5 & _)).
      exists (timeline_entry j); rewrite nth_error_map, Hj; split; [reflexivity |].
      clear H Hj; unfold timeline_entry, job_of_appliance, new_Job in *;
        cbn [te_name te_priority te_duration name priority duration] in *.
      split; [congruence | split; [congruence |]].
      rewrite <- E4; split.
      * intros d Hd Hd0; rewrite Hd; destruct (Req_EM_T d 0); [contradiction | field].
      * intros [Hd | Hd]; rewrite Hd; [| destruct (Req_EM_T 0 0); [| contradiction]]; lra.
Qed.

(** X19: In the timeline of a run, an entry has no start hour exactly when its
    status is WAITING, and a start hour, when present, lies in the simulated
    day [0, 24). *)
Theorem runSmartSimulation_timeline_start (appliances : list Appliance) (files : Files)
    (config : SimulationConfig) (useSmart : bool) :
  Forall (fun e => (te_status e = WAITING <-> te_start e = None) /\
                   (forall s, te_start e = Some s ->
                      SIMULATION_START_HOUR <= s < SIMULATION_END_HOUR))
    (timeline (runSmartSimulation appliances files config useSmart)).
Proof.
  unfold runSmartSimulation; cbv zeta; cbn [timeline].
  match goal with |- context [sim_loop ?f ?u ?gs ?gt ?c ?s0] =>
    assert (H : (fun st => SIMULATION_START_HOUR <= st_hour st /\
                           Forall start_consistent (st_jobs st))
                  (sim_loop f u gs gt c s0));
    [apply sim_loop_invariant | cbv beta in H] end.
  - intros s (G1 & G2) Hlt; split.
    + step_eqs useSmart (createLookup (files_solar files))
        (createLookup (files_weather files)) config s.
      rewrite Eh; pose proof dt_pos; lra.
    + apply sim_step_jobs_forall; [| | | exact G2]; intros j Hj.
      * apply start_consistent_runStep; [split |]; assumption.
      * apply start_consistent_start; [split |]; assumption.
      * apply start_consistent_deadline; [split |]; assumption.
  - unfold initial_state, build_jobs; cbn [st_hour st_jobs].
    split; [lra | apply build_jobs_from_consistent].
  - rewrite Forall_map; eapply Forall_impl; [| exact (proj2 H)].
    intros j Hj; exact Hj.
Qed.

(** X20: When every appliance draws a non-negative power, every point of the
    solar file has a non-negative value and the configured solar capacity is
    non-negative, the solar energy of a run is non-negative, and its solar
    share is NaN when no energy was used and otherwise a number between 0
    and 100. *)
Theorem runSmartSimulation_solar_share (appliances : list Appliance) (files : Files)
    (config : SimulationConfig) (useSmart : bool)
    (Hpower : forall app, In app appliances -> 0 <= app_power app)
    (Hsolar : forall pts p, files_solar files = Some pts -> In p pts -> 0 <= value p)
    (Hcap : 0 <= with_default MAX_SOLAR_KW (cfg_maxSolarKw config)) :
  let m := runSmartSimulation appliances files config useSmart in
  0 <= energy_solar m /\ energy_solar m <= energy_total m /\
  (energy_total m = 0 -> energy_solarPct m = JNaN) /\
  (0 < energy_total m -> exists r, energy_solarPct m = JNum r /\ 0 <= r <= 100).
Proof.
  cbv zeta; unfold runSmartSimulation; cbv zeta;
    cbn [energy_solar energy_total energy_solarPct].
  assert (Hsa : forall h, 0 <= solar_available (createLookup (files_solar files)) config h).
  { intros h; unfold solar_available.
    destruct (createLookup (files_solar files) h) as [v |] eqn:Hv.
    - destruct (createLookup_some_in _ _ _ Hv) as (pts & p & Hf & Hin & <-).
      exact (Hsolar pts p Hf Hin).
    - apply getSolarPower_nonneg; exact Hcap. }
  match goal with |- context [sim_loop ?f ?u ?gs ?gt ?c ?s0] =>
    assert (H : (fun st =>
      (0 <= st_cooling st <= st_grid st /\ 0 <= st_cost st /\ 0 <= st_carbon st) /\
      0 <= st_solar st /\ Forall (fun j => 0 <= powerKw j) (st_jobs st))
                  (sim_loop f u gs gt c s0));
    [apply sim_loop_invariant | cbv beta in H] end.
  - intros s ((G1 & G2 & G3) & G4 & G5) _.
    destruct (sim_step_energy useSmart (createLookup (files_solar files))
                (createLookup (files_weather files)) config s G1 G2 G3) as (K1 & K2 & K3 & _).
    split; [repeat split; lra |].
    step_eqs useSmart (createLookup (files_solar files))
      (createLookup (files_weather files)) config s.
    split.
    + rewrite Es.
      match goal with |- context [Rmin (compute_load ?r ?js) ?sa] =>
        assert (0 <= Rmin (compute_load r js) sa)
          by (apply Rmin_glb; [apply compute_load_nonneg,
                                schedule_after_advance_power; exact G5 | apply Hsa]) end.
      pose proof dt_pos.
      match goal with |- context [Rmin ?a ?b * ?c] =>
        assert (0 <= Rmin a b * c) by (apply Rmult_le_pos; lra) end.
      lra.
    + rewrite Ej, check_deadlines_map, Forall_map.
      pose proof (schedule_after_advance_power useSmart
                    (solar_available (createLookup (files_solar files)) config (st_hour s))
                    (st_temp s) (st_hour s) (st_running s) (st_jobs s) G5) as P.
      eapply Forall_impl; [| exact P]; intros j Hj.
      destruct (static_deadline (st_hour s) j) as (_ & _ & Ep & _); lra.
  - unfold initial_state, build_jobs;
      cbn [st_cooling st_grid st_cost st_carbon st_solar st_jobs].
    repeat split; try lra.
    apply build_jobs_from_power; exact Hpower.
  - destruct H as ((H1 & _) & H2 & _).
    set (s := st_solar _) in *; set (g := st_grid _) in *.
    split; [lra | split; [lra | split]].
    + intros Ht; assert (s = 0) by lra.
      unfold js_div, js_mul_pos; decide_R; reflexivity.
    + intros Ht; unfold js_div, js_mul_pos.
      destruct (Req_EM_T (s + g) 0); [lra |].
      eexists; split; [reflexivity |].
      assert (0 <= s / (s + g) <= 1).
      { split; [apply Rmult_le_pos; [lra | left; apply Rinv_0_lt_compat; lra] |].
        apply (Rmult_le_reg_r (s + g)); [lra |].
        unfold Rdiv; rewrite Rmult_assoc, Rinv_l by lra; lra. }
      lra.
Qed.

Lemma runSmartSimulation_solar_share_witness :
  let m := runSmartSimulation [mkAppliance "pump" 2 None "high" None None]
             (mkFiles None None None) default_config true in
  0 <= energy_solar m /\ energy_solar m <= energy_total m /\
  (energy_total m = 0 -> energy_solarPct m = JNaN) /\
  (0 < energy_total m -> exists r, energy_solarPct m = JNum r /\ 0 <= r <= 100).
Proof.
  apply runSmartSimulation_solar_share.
  - intros app [<- | []]; cbn; lra.
  - intros pts p Hf; discriminate.
  - unfold default_config, with_default, MAX_SOLAR_KW; cbn; lra.
Defined.
